(** * Complete numbers: a shallow embedding of [complete_numbers.py]

    The Python module defines two classes, [CompleteComponent] (a float
    tagged with the slot it was read from) and [CompleteNumber] (four float
    fields: real, imag and the two absorbed slots), with the operators [*]
    and [/] and a textual rendering.  This file embeds the two classes and
    the part of Python's data model they rely on (binary64 floats, int to
    float conversion, [str] of a float, [str.join], [str.replace], the
    dispatch of a binary operator to [__op__] and [__rop__], the namespace a
    class body builds), and proves the properties of the specification. *)

From Stdlib Require Import ZArith List Bool Ascii String Decimal DecimalString Lia.
From Stdlib Require Import Floats.SpecFloat QArith Qabs Qminmax Lqa.
From stdpp Require Import base gmap strings.

Open Scope Z_scope.

(** Under [simpl], appending to a string that starts with a known character
    unfolds, and a comparison of characters is computed when both are known. *)
#[local] Arguments String.append !s1 s2 : simpl nomatch.
#[local] Arguments Ascii.eqb !a !b : simpl nomatch.

(** ** Python values the module computes with *)

Module Py.

(** Exceptions raised by the module or by the built-in operations it uses. *)
Inductive exn : Type :=
| ZeroDivisionError
| OverflowError
| AttributeError
| TypeError.

(** A computation either returns or raises. *)
Inductive result (A : Type) : Type :=
| Return (a : A)
| Raise (e : exn).
Arguments Return {A} a.
Arguments Raise {A} e.

Definition bind {A B : Type} (c : result A) (k : A -> result B) : result B :=
  match c with
  | Return a => k a
  | Raise e => Raise e
  end.

Notation "'let*' x ':=' c 'in' k" := (bind c (fun x => k))
  (at level 10, x name, c at level 100, k at level 200).

(** *** Floats: IEEE-754 binary64 *)

Definition prec : Z := 53.
Definition emax : Z := 1024.

(** A Python [float]; the values Python builds satisfy [valid_binary prec emax]. *)
Definition float : Type := spec_float.

Definition fzero : float := S754_zero false.
Definition fmul : float -> float -> float := SFmul prec emax.
Definition fdiv : float -> float -> float := SFdiv prec emax.
Definition fabs : float -> float := SFabs.

(** [a == b], [a != b] and [a < b] on floats: every comparison with NaN is
    false except [!=]; the two zeros are equal. *)
Definition feq (a b : float) : bool := SFeqb a b.
Definition fne (a b : float) : bool := negb (SFeqb a b).
Definition flt (a b : float) : bool := SFltb a b.

(** The float nearest to an integer (ties to even), infinite when the
    integer is beyond the range of binary64. *)
Definition float_of_Z (z : Z) : float := binary_normalize prec emax z 0 false.

(** *** Scalars: the operands that are [int] or [float] *)

Inductive scalar : Type :=
| PyInt (z : Z)
| PyFloat (f : float).

(** [s == 0]: exact on ints, IEEE on floats. *)
Definition eq_zero (s : scalar) : bool :=
  match s with
  | PyInt z => Z.eqb z 0
  | PyFloat f => feq f fzero
  end.

(** [float(s)]: the identity on a float; an int converts to the nearest
    float, and [OverflowError] is raised when it is too large. *)
Definition to_float (s : scalar) : result float :=
  match s with
  | PyFloat f => Return f
  | PyInt z =>
      match float_of_Z z with
      | S754_infinity _ => Raise OverflowError
      | f => Return f
      end
  end.

(** [a * s] for a float [a]: [float.__mul__] converts an int operand first. *)
Definition float_mul (a : float) (s : scalar) : result float :=
  let* b := to_float s in Return (fmul a b).

(** [a / s] for a float [a]: [float.__truediv__] converts an int operand,
    then refuses a zero divisor. *)
Definition float_truediv (a : float) (s : scalar) : result float :=
  let* b := to_float s in
  if feq b fzero then Raise ZeroDivisionError else Return (fdiv a b).

(** [s / b] for a float [b]: [float.__rtruediv__]. *)
Definition float_rtruediv (s : scalar) (b : float) : result float :=
  let* a := to_float s in
  if feq b fzero then Raise ZeroDivisionError else Return (fdiv a b).

(** *** [str] of a float

    [repr(float)] prints the shortest decimal digit string that reads back
    as the same float (the nearest to the float among the shortest), in
    positional form when the decimal point position [decpt] is in
    [(-4, 16]] and in exponent form otherwise; an integral value gets a
    trailing [.0]. *)

Definition digits_of_N (n : N) : string := NilZero.string_of_uint (N.to_uint n).

Definition ndigits (z : Z) : Z := Z.of_nat (String.length (digits_of_N (Z.to_N z))).

Fixpoint zeros (n : nat) : string :=
  match n with
  | O => EmptyString
  | S k => String "0" (zeros k)
  end.

(** Drops the zeros at the end of a digit string. *)
Fixpoint rstrip_zeros (s : string) : string :=
  match s with
  | EmptyString => EmptyString
  | String c r =>
      match rstrip_zeros r with
      | EmptyString => if Ascii.eqb c "0" then EmptyString else String c EmptyString
      | r' => String c r'
      end
  end.

(** The decimal [d * 10^k] against the dyadic [b * 2^sc]. *)
Definition cmp_dec_dyadic (d k b sc : Z) : comparison :=
  Z.compare (d * 10 ^ Z.max k 0 * 2 ^ Z.max (- sc) 0)
            (b * 2 ^ Z.max sc 0 * 10 ^ Z.max (- k) 0).

(** [floor (b * 2^sc / 10^k)]. *)
Definition floor_scaled (b sc k : Z) : Z :=
  (b * 2 ^ Z.max sc 0 * 10 ^ Z.max (- k) 0) / (2 ^ Z.max (- sc) 0 * 10 ^ Z.max k 0).

(** [floor (log10 (b * 2^sc))] for [b > 0]. *)
Definition ilog10 (b sc : Z) : Z :=
  let num := b * 2 ^ Z.max sc 0 in
  let den := 2 ^ Z.max (- sc) 0 in
  if den <=? num then ndigits (num / den) - 1 else - ndigits (den / num).

Section Shortest.
(** The float is [x * 2^sc]; the decimals that read back as it are those
    between [lo * 2^sc] and [hi * 2^sc], the bounds included when the
    mantissa is even. *)
Variables (x lo hi sc : Z) (incl : bool).

Definition reads_back (d k : Z) : bool :=
  match cmp_dec_dyadic d k lo sc, cmp_dec_dyadic d k hi sc with
  | Gt, Lt => true
  | Eq, Lt | Gt, Eq => incl
  | _, _ => false
  end.

(** The [n]-digit candidates on both sides of the float, if one reads back. *)
Definition candidate (n : Z) : option (Z * Z) :=
  let k := ilog10 x sc - (n - 1) in
  let dlo := floor_scaled x sc k in
  let dhi := dlo + 1 in
  match reads_back dlo k, reads_back dhi k with
  | true, true =>
      match cmp_dec_dyadic (dlo + dhi) k (2 * x) sc with
      | Gt => Some (dlo, k)
      | Lt => Some (dhi, k)
      | Eq => Some (if Z.even dlo then dlo else dhi, k)
      end
  | true, false => Some (dlo, k)
  | false, true => Some (dhi, k)
  | false, false => None
  end.

Fixpoint shortest_from (todo : nat) (n : Z) : Z * Z :=
  match todo with
  | O => (floor_scaled x sc (ilog10 x sc - (n - 1)), ilog10 x sc - (n - 1))
  | S t =>
      match candidate n with
      | Some dk => dk
      | None => shortest_from t (n + 1)
      end
  end.
End Shortest.

(** Digits and decimal point position of the finite float [m * 2^e]: the
    value is [0.DIGITS * 10^decpt]. *)
Definition shortest_digits (m : positive) (e : Z) : string * Z :=
  let boundary := Pos.eqb m (2 ^ 52) && (emin prec emax <? e) in
  let x := 4 * Zpos m in
  let lo := if boundary then x - 1 else x - 2 in
  let hi := x + 2 in
  let '(d, k) := shortest_from x lo hi (e - 2) (Z.even (Zpos m)) 17 1 in
  let ds := digits_of_N (Z.to_N d) in
  (rstrip_zeros ds, Z.of_nat (String.length ds) + k).

Definition pad2 (s : string) : string :=
  if (String.length s <? 2)%nat then String "0" s else s.

Definition format_repr (ds : string) (decpt : Z) : string :=
  let n := Z.of_nat (String.length ds) in
  if (decpt <=? -4) || (16 <? decpt) then
    let mantissa :=
      match ds with
      | String c EmptyString => ds
      | String c rest => String c (String "." rest)
      | EmptyString => ds
      end in
    mantissa +:+ "e" +:+ (if decpt - 1 <? 0 then "-" else "+")
      +:+ pad2 (digits_of_N (Z.abs_N (decpt - 1)))
  else if decpt <=? 0 then
    "0." +:+ zeros (Z.to_nat (- decpt)) +:+ ds
  else if decpt <? n then
    String.substring 0 (Z.to_nat decpt) ds +:+ "."
      +:+ String.substring (Z.to_nat decpt) (Z.to_nat (n - decpt)) ds
  else
    ds +:+ zeros (Z.to_nat (decpt - n)) +:+ ".0".

Definition sign_str (s : bool) : string := if s then "-" else "".

Definition float_repr (f : float) : string :=
  match f with
  | S754_nan => "nan"
  | S754_infinity s => sign_str s +:+ "inf"
  | S754_zero s => sign_str s +:+ "0.0"
  | S754_finite s m e =>
      let '(ds, decpt) := shortest_digits m e in
      sign_str s +:+ format_repr ds decpt
  end.

(** *** Strings *)

(** [sep.join(parts)]. *)
Definition join (sep : string) (parts : list string) : string := String.concat sep parts.

(** [s.startswith(pre)]. *)
Fixpoint startswith (s pre : string) {struct pre} : bool :=
  match pre with
  | EmptyString => true
  | String a pre' =>
      match s with
      | EmptyString => false
      | String b s' => Ascii.eqb a b && startswith s' pre'
      end
  end.

(** [s.replace(old, new)] for a non-empty [old]: the occurrences of [old]
    are replaced from left to right, the search resuming after each one.
    [skip] counts the characters of a matched occurrence still to drop. *)
Fixpoint replace_from (old new : string) (skip : nat) (s : string) : string :=
  match s with
  | EmptyString => EmptyString
  | String c s' =>
      match skip with
      | S k => replace_from old new k s'
      | O =>
          if startswith s old
          then new +:+ replace_from old new (String.length old - 1) s'
          else String c (replace_from old new 0 s')
      end
  end.

Definition replace (old new s : string) : string := replace_from old new 0 s.

(** *** Values and binary operators *)

(** What an expression over floats and strings evaluates to. *)
Inductive value : Type :=
| VFloat (f : float)
| VStr (s : string).

(** What a special method hands back: a value, or the [NotImplemented]
    singleton that tells the interpreter to try the other operand. *)
Inductive ret (A : Type) : Type :=
| Val (a : A)
| NotImplemented.
Arguments Val {A} a.
Arguments NotImplemented {A}.

(** [a op b]: the interpreter calls [type(a).__op__(a, b)]; when that is
    missing or returns [NotImplemented] it calls [type(b).__rop__(b, a)];
    when that is missing or returns [NotImplemented] too, [TypeError]. *)
Definition binary_op {A : Type} (lhs rhs : result (ret A)) : result A :=
  match lhs with
  | Raise e => Raise e
  | Return (Val a) => Return a
  | Return NotImplemented =>
      match rhs with
      | Raise e => Raise e
      | Return (Val a) => Return a
      | Return NotImplemented => Raise TypeError
      end
  end.

(** The special methods of [int] and [float] return [NotImplemented] for an
    operand that is neither an int nor a float. *)
Definition builtin_foreign {A : Type} : result (ret A) := Return NotImplemented.

(** A special method looked up in a class namespace; a missing method counts
    as [NotImplemented]. *)
Definition call_method {S O A : Type} (ns : gmap string (S -> O -> result (ret A)))
    (name : string) (self : S) (other : O) : result (ret A) :=
  match ns !! name with
  | Some m => m self other
  | None => Return NotImplemented
  end.

(** The namespace a class body builds: each [def] binds its name, a later
    binding of the same name replacing the earlier one. *)
Definition class_namespace {M : Type} (body : list (string * M)) : gmap string M :=
  fold_left (fun ns d => <[fst d := snd d]> ns) body ∅.

End Py.

Import Py.

(** ** class CompleteComponent *)

Module CompleteComponent.

Record t : Type := mk { _value : float; _type : string }.

Definition __init__ (value : scalar) (component_type : string) : result t :=
  let* v := to_float value in
  Return {| _value := v; _type := component_type |}.

Definition __mul__ (self : t) (other : scalar) : result (ret value) :=
  if eq_zero other then
    if String.eqb (_type self) "real"
    then Return (Val (VStr (float_repr (_value self) +:+ "u")))
    else Return (Val (VStr (float_repr (_value self) +:+ "uj")))
  else
    let* p := float_mul (_value self) other in Return (Val (VFloat p)).

Definition __truediv__ (self : t) (other : scalar) : result (ret value) :=
  if eq_zero other then Raise ZeroDivisionError
  else let* q := float_truediv (_value self) other in Return (Val (VFloat q)).

(** The first [def __rtruediv__] of the class body. *)
Definition __rtruediv__1 (self : t) (other : scalar) : result (ret value) :=
  if feq (_value self) fzero then Raise ZeroDivisionError
  else let* q := float_rtruediv other (_value self) in Return (Val (VFloat q)).

Definition __rmul__ (self : t) (other : scalar) : result (ret value) :=
  __mul__ self other.

(** The second [def __rtruediv__] of the class body. *)
Definition __rtruediv__2 (self : t) (other : scalar) : result (ret value) :=
  Return NotImplemented.

Definition __repr__ (self : t) : string := float_repr (_value self).

Definition __float__ (self : t) : float := _value self.

(** The operator methods in the order the class body defines them. *)
Definition class_body : list (string * (t -> scalar -> result (ret value))) :=
  [ ("__mul__", __mul__);
    ("__truediv__", __truediv__);
    ("__rtruediv__", __rtruediv__1);
    ("__rmul__", __rmul__);
    ("__rtruediv__", __rtruediv__2) ].

Definition namespace : gmap string (t -> scalar -> result (ret value)) :=
  class_namespace class_body.

(** [self * s], [s * self], [self / s] and [s / self] for a scalar [s]. *)
Definition mul (self : t) (s : scalar) : result value :=
  binary_op (call_method namespace "__mul__" self s) builtin_foreign.

Definition mul_r (s : scalar) (self : t) : result value :=
  binary_op builtin_foreign (call_method namespace "__rmul__" self s).

Definition truediv (self : t) (s : scalar) : result value :=
  binary_op (call_method namespace "__truediv__" self s) builtin_foreign.

Definition truediv_r (s : scalar) (self : t) : result value :=
  binary_op builtin_foreign (call_method namespace "__rtruediv__" self s).

End CompleteComponent.

(** ** class CompleteNumber *)

Module CompleteNumber.

Record t : Type := mk { _real : float; _imag : float; _u_real : float; _u_imag : float }.

(** The right operand of [*] and [/]: an int or a float, or another
    complete number. *)
Inductive operand : Type :=
| Scalar (s : scalar)
| Complete (c : t).

(** [CompleteNumber(real, imag, u_real, u_imag)]. *)
Definition __init__ (real imag u_real u_imag : scalar) : result t :=
  let* r := to_float real in
  let* i := to_float imag in
  let* ur := to_float u_real in
  let* ui := to_float u_imag in
  Return {| _real := r; _imag := i; _u_real := ur; _u_imag := ui |}.

(** [CompleteNumber(real, imag)]: [u_real] and [u_imag] default to [0]. *)
Definition __init__2 (real imag : scalar) : result t :=
  __init__ real imag (PyInt 0) (PyInt 0).

(** The attributes [__init__] binds on the instance. *)
Definition __dict__ (self : t) : gmap string float :=
  <["_u_imag" := _u_imag self]>
    (<["_u_real" := _u_real self]>
      (<["_imag" := _imag self]>
        (<["_real" := _real self]> ∅))).

(** [self.name] for a name the class body does not bind: the instance
    attribute, or [AttributeError]. *)
Definition getattr (self : t) (name : string) : result float :=
  match __dict__ self !! name with
  | Some v => Return v
  | None => Raise AttributeError
  end.

(** The properties [real] and [imag]. *)
Definition real (self : t) : result CompleteComponent.t :=
  CompleteComponent.__init__ (PyFloat (_real self)) "real".

Definition imag (self : t) : result CompleteComponent.t :=
  CompleteComponent.__init__ (PyFloat (_imag self)) "imag".

Definition __mul__ (self : t) (other : operand) : result (ret t) :=
  match other with
  | Scalar s =>
      if eq_zero s then
        let* c := __init__ (PyInt 0) (PyInt 0) (PyFloat (_real self)) (PyFloat (_imag self)) in
        Return (Val c)
      else
        let* a := float_mul (_real self) s in
        let* b := float_mul (_imag self) s in
        let* c := __init__2 (PyFloat a) (PyFloat b) in
        Return (Val c)
  | Complete _ => Return NotImplemented
  end.

Definition __truediv__ (self : t) (other : operand) : result (ret t) :=
  match other with
  | Scalar s =>
      if eq_zero s then
        if fne (_real self) fzero || fne (_imag self) fzero
        then Raise ZeroDivisionError
        else
          let* c := __init__2 (PyFloat (_u_real self)) (PyFloat (_u_imag self)) in
          Return (Val c)
      else
        let* a := float_truediv (_real self) s in
        let* b := float_truediv (_imag self) s in
        let* ua := float_truediv (_u_real self) s in
        let* ub := float_truediv (_u_imag self) s in
        let* c := __init__ (PyFloat a) (PyFloat b) (PyFloat ua) (PyFloat ub) in
        Return (Val c)
  | Complete _ => Return NotImplemented
  end.

Definition __rtruediv__ (self : t) (other : scalar) : result (ret value) :=
  let* v := getattr self "_value" in
  if feq v fzero then Raise ZeroDivisionError
  else let* q := float_rtruediv other v in Return (Val (VFloat q)).

Definition __rmul__ (self : t) (other : operand) : result (ret t) :=
  __mul__ self other.

Definition __repr__ (self : t) : string :=
  let parts := [] in
  let parts :=
    if fne (_real self) fzero
       || (feq (_imag self) fzero && feq (_u_real self) fzero && feq (_u_imag self) fzero)
    then parts ++ [float_repr (_real self)] else parts in
  let parts :=
    if fne (_imag self) fzero then parts ++ [float_repr (_imag self) +:+ "j"] else parts in
  let parts :=
    if fne (_u_real self) fzero then parts ++ [float_repr (_u_real self) +:+ "u"] else parts in
  let parts :=
    if fne (_u_imag self) fzero then parts ++ [float_repr (_u_imag self) +:+ "uj"] else parts in
  replace " + -" " - " (join " + " parts).

(** [self * o] and [self / o]: an int or float [o] has no reflected method
    for a complete number, and for [o] of the same class the reflected
    method is not tried. *)
Definition mul (self : t) (o : operand) : result t :=
  binary_op (__mul__ self o) (Return NotImplemented).

Definition truediv (self : t) (o : operand) : result t :=
  binary_op (__truediv__ self o) (Return NotImplemented).

(** [s * self] and [s / self] for a scalar [s]. *)
Definition mul_r (s : scalar) (self : t) : result t :=
  binary_op builtin_foreign (__rmul__ self (Scalar s)).

Definition truediv_r (s : scalar) (self : t) : result value :=
  binary_op builtin_foreign (__rtruediv__ self s).

End CompleteNumber.

(** ** Character classes of a string *)

Fixpoint all_chars (P : ascii -> bool) (s : string) : bool :=
  match s with
  | EmptyString => true
  | String c r => P c && all_chars P r
  end.

Definition not_space (c : ascii) : bool := negb (Ascii.eqb c " ").
Definition not_minus (c : ascii) : bool := negb (Ascii.eqb c "-").

(** [s.startswith("-")]. *)
Definition starts_minus (s : string) : bool :=
  match s with
  | String c _ => Ascii.eqb c "-"
  | EmptyString => false
  end.

(** What [join] puts after the first part. *)
Fixpoint sep_tail (sep : string) (parts : list string) : string :=
  match parts with
  | [] => ""
  | p :: ps => sep +:+ p +:+ sep_tail sep ps
  end.

(** ** The properties, as the specification words them *)

Import CompleteNumber.

(** The rendering of section 4.1: the nonzero terms in the order real,
    imag [j], u_real [u], u_imag [uj]; the real term is also there when the
    three other fields are zero; the first term is printed as it is, each
    later term after [" + "], or after [" - "] without its sign when it is
    negative. *)
Definition spec_terms (x : CompleteNumber.t) : list (float * string) :=
  (if fne (_real x) fzero
      || (feq (_imag x) fzero && feq (_u_real x) fzero && feq (_u_imag x) fzero)
   then [(_real x, "")] else [])
  ++ (if fne (_imag x) fzero then [(_imag x, "j")] else [])
  ++ (if fne (_u_real x) fzero then [(_u_real x, "u")] else [])
  ++ (if fne (_u_imag x) fzero then [(_u_imag x, "uj")] else []).

Definition first_term (t : float * string) : string :=
  float_repr (fst t) +:+ snd t.

Definition later_term (t : float * string) : string :=
  if flt (fst t) fzero
  then " - " +:+ float_repr (fabs (fst t)) +:+ snd t
  else " + " +:+ float_repr (fst t) +:+ snd t.

Definition spec_to_string (x : CompleteNumber.t) : string :=
  match spec_terms x with
  | [] => ""
  | t :: ts => first_term t +:+ String.concat "" (map later_term ts)
  end.

(** A term that may follow the first one: its value is not zero, and its
    suffix has neither a space nor a leading minus sign. *)
Definition later_ok (t : float * string) : Prop :=
  fne (fst t) fzero = true
  /\ all_chars not_space (snd t) = true
  /\ starts_minus (snd t) = false.

(** The exact value of a finite float. *)
Definition float_to_Q (f : float) : option Q :=
  match f with
  | S754_zero _ => Some 0%Q
  | S754_finite s m e =>
      Some (Qmult (Qmake (if s then Zneg m else Zpos m) 1)
                  (if 0 <=? e then Qmake (2 ^ e) 1 else Qmake 1 (Z.to_pos (2 ^ (- e)))))
  | _ => None
  end.

(** Equality within the relative tolerance [tol]; an infinite value or a
    NaN is only close to itself. *)
Definition isclose (tol : Q) (a b : float) : Prop :=
  match float_to_Q a, float_to_Q b with
  | Some p, Some q => (Qabs (p - q) <= tol * Qmax (Qabs p) (Qabs q))%Q
  | _, _ => a = b
  end.

(** The scaling identity of section 8: [(x / s) * s] returns a number whose
    four fields are those of [x] within the tolerance. *)
Definition scaling_identity (tol : Q) (x : CompleteNumber.t) (s : scalar) : Prop :=
  exists y,
    (let* q := truediv x (Scalar s) in mul q (Scalar s)) = Return y
    /\ isclose tol (_real y) (_real x)
    /\ isclose tol (_imag y) (_imag x)
    /\ isclose tol (_u_real y) (_u_real x)
    /\ isclose tol (_u_imag y) (_u_imag x).

(** The floats [1.0], [3.0] and [4.0] of the scenarios. *)
Definition f1 : float := S754_finite false 4503599627370496 (-52).
Definition f3 : float := S754_finite false 6755399441055744 (-51).
Definition f4 : float := S754_finite false 4503599627370496 (-50).

Example scenario_floats :
  to_float (PyInt 1) = Return f1 /\ to_float (PyInt 3) = Return f3
  /\ to_float (PyInt 4) = Return f4.
Proof. repeat split. Qed.

(** ** Further operations of the demonstration code and of the properties *)

(** [a + b] on floats, as in [box_vanished._u_real + crate_vanished._u_real]. *)
Definition fadd : float -> float -> float := SFadd prec emax.

(** A float that is neither infinite nor a NaN. *)
Definition finite_float (f : float) : bool :=
  match f with
  | S754_zero _ | S754_finite _ _ _ => true
  | S754_infinity _ | S754_nan => false
  end.

(** [pat in s]. *)
Fixpoint contains (s pat : string) : bool :=
  match s with
  | EmptyString => startswith s pat
  | String _ r => startswith s pat || contains r pat
  end.

Definition not_plus (c : ascii) : bool := negb (Ascii.eqb c "+").

(** [s.startswith("+")]. *)
Definition starts_plus (s : string) : bool :=
  match s with
  | String c _ => Ascii.eqb c "+"
  | EmptyString => false
  end.

(** The power of two [2^e] as a rational, for an exponent of either sign. *)
Definition Qp2 (e : Z) : Q :=
  if 0 <=? e then Qmake (2 ^ e) 1 else Qmake 1 (Z.to_pos (2 ^ (- e))).

(** A finite float whose mantissa has all its bits: neither zero nor
    subnormal. *)
Definition normal_float (f : float) : bool :=
  match f with
  | S754_finite _ m _ => 2 ^ 52 <=? Zpos m
  | _ => false
  end.

(** The tolerance of the scaling identity on the real and imag fields:
    [2^-50]. *)
Definition round_trip_tol : Q := Qmake 1 1125899906842624.

(** [r / f] and [(r / f) * f] neither overflow nor underflow: both are
    normal floats, or [r] is zero and [f] is finite and not zero. *)
Definition in_range (r f : float) : bool :=
  (normal_float (fdiv r f) && normal_float (fmul (fdiv r f) f))
  || (feq r fzero && finite_float f && fne f fzero).

(** The floats [2.0] and [0.5], the smallest positive float [5e-324] and the
    largest finite float. *)
Definition f2 : float := S754_finite false 4503599627370496 (-51).
Definition f_half : float := S754_finite false 4503599627370496 (-53).
Definition f_tiny : float := S754_finite false 1 (-1074).
Definition f_max : float := S754_finite false 9007199254740991 971.

(** ** Conversions and zero tests *)

(** A scalar that compares equal to [0] is the int [0] or one of the two
    float zeros. *)
Lemma eq_zero_cases (s : scalar) :
  eq_zero s = true -> s = PyInt 0 \/ exists b, s = PyFloat (S754_zero b).
Proof.
  destruct s as [z | f]; simpl; intros H.
  - left. apply Z.eqb_eq in H. now subst.
  - right. destruct f as [b | [] | | [] m e]; try discriminate. now exists b.
Qed.

(** ** Rounding never turns a nonzero integer into a zero float *)

Lemma Zdigits2_log2 (m : Z) : 0 < m -> Zdigits2 m = Z.log2 m + 1.
Proof.
  destruct m as [| p | p]; try lia. intros _. simpl.
  assert (H : forall q, digits2_pos q = Pos.size q) by (induction q; simpl; congruence).
  rewrite H. destruct p; simpl; lia.
Qed.

Lemma shr_1_m (mrs : shr_record) : 0 <= shr_m mrs -> shr_m (shr_1 mrs) = Z.div2 (shr_m mrs).
Proof.
  destruct mrs as [m r s]. simpl. destruct m as [| [p | p |] | p]; simpl; try reflexivity; lia.
Qed.

Lemma iter_shr_1_m (p : positive) : forall mrs,
  0 <= shr_m mrs -> shr_m (SpecFloat.iter_pos shr_1 p mrs) = Z.shiftr (shr_m mrs) (Zpos p).
Proof.
  induction p as [p IH | p IH |]; intros mrs Hm; simpl SpecFloat.iter_pos.
  - assert (H1 : 0 <= shr_m (shr_1 mrs)) by (rewrite shr_1_m by lia; now apply Z.div2_nonneg).
    assert (H2 : 0 <= shr_m (SpecFloat.iter_pos shr_1 p (shr_1 mrs)))
      by (rewrite IH by lia; now apply Z.shiftr_nonneg).
    rewrite (IH _ H2), (IH _ H1), shr_1_m by lia.
    rewrite Z.div2_spec, !Z.shiftr_shiftr by lia. f_equal. lia.
  - assert (H2 : 0 <= shr_m (SpecFloat.iter_pos shr_1 p mrs))
      by (rewrite IH by lia; now apply Z.shiftr_nonneg).
    rewrite (IH _ H2), (IH _ Hm).
    rewrite !Z.shiftr_shiftr by lia. f_equal. lia.
  - rewrite shr_1_m by lia. now rewrite Z.div2_spec.
Qed.

Section Round.
Variables prec emax : Z.
Hypothesis Hprec : 0 < prec.

Lemma shr_fexp_pos (m e : Z) (l : location) :
  0 < m -> emin prec emax < Zdigits2 m + e ->
  0 < shr_m (fst (shr_fexp prec emax m e l))
  /\ Zdigits2 (shr_m (fst (shr_fexp prec emax m e l))) + snd (shr_fexp prec emax m e l)
     = Zdigits2 m + e.
Proof.
  intros Hm He. unfold shr_fexp, shr.
  assert (Hrec : shr_m (shr_record_of_loc m l) = m) by (destruct l as [| []]; reflexivity).
  destruct (fexp prec emax (Zdigits2 m + e) - e) as [| n | n] eqn:Hn; simpl fst; simpl snd;
    rewrite ?Hrec; try (split; [assumption | reflexivity]).
  rewrite iter_shr_1_m by (rewrite Hrec; lia). rewrite Hrec.
  rewrite (Zdigits2_log2 m Hm) in *.
  assert (Hlt : Zpos n <= Z.log2 m) by (unfold fexp in Hn; lia).
  assert (Hpos : 0 < Z.shiftr m (Zpos n)).
  { rewrite Z.shiftr_div_pow2 by lia.
    apply Z.div_str_pos. split; [apply Z.pow_pos_nonneg; lia |].
    transitivity (2 ^ Z.log2 m); [apply Z.pow_le_mono_r; lia | apply Z.log2_spec; lia]. }
  split; [assumption |].
  rewrite (Zdigits2_log2 _ Hpos), Z.log2_shiftr by lia. lia.
Qed.

Lemma binary_round_aux_nonzero (sx : bool) (mx ex : Z) (lx : location) (b : bool) :
  0 < mx -> emin prec emax < Zdigits2 mx + ex ->
  binary_round_aux prec emax sx mx ex lx <> S754_zero b.
Proof.
  intros Hm He. unfold binary_round_aux.
  destruct (shr_fexp_pos mx ex lx Hm He) as [H1 H2].
  destruct (shr_fexp prec emax mx ex lx) as [mrs' e'] eqn:E1. simpl fst in *; simpl snd in *.
  set (m2 := round_nearest_even (shr_m mrs') (loc_of_shr_record mrs')).
  assert (Hm2 : shr_m mrs' <= m2 <= shr_m mrs' + 1).
  { unfold m2, round_nearest_even.
    destruct (loc_of_shr_record mrs') as [| []]; try destruct (Z.even _); lia. }
  assert (Hd : Zdigits2 (shr_m mrs') <= Zdigits2 m2).
  { rewrite !Zdigits2_log2 by lia. apply Z.add_le_mono_r, Z.log2_le_mono. lia. }
  destruct (shr_fexp_pos m2 e' loc_Exact) as [H3 _]; [lia | lia |].
  destruct (shr_fexp prec emax m2 e' loc_Exact) as [mrs'' e''] eqn:E2. simpl fst in *.
  destruct (shr_m mrs''); try lia.
  destruct (Z.leb _ _); discriminate.
Qed.
End Round.

Lemma float_of_Z_nonzero (z : Z) (b : bool) : z <> 0 -> float_of_Z z <> S754_zero b.
Proof.
  intros Hz. unfold float_of_Z, binary_normalize.
  assert (Hround : forall sx p, binary_round prec emax sx p 0 <> S754_zero b).
  { intros sx p. unfold binary_round.
    destruct (shl_align p 0 (fexp prec emax (Zpos (digits2_pos p) + 0))) as [mz ez] eqn:E.
    apply binary_round_aux_nonzero; [reflexivity | lia |].
    unfold shl_align in E. change (emin prec emax) with (-1074).
    destruct (fexp prec emax (Zpos (digits2_pos p) + 0) - 0) eqn:Hd;
      inversion E; subst; simpl Zdigits2; unfold fexp;
      change (emin prec emax) with (-1074); lia. }
  destruct z; [contradiction | apply Hround | apply Hround].
Qed.

(** A scalar different from zero converts to a float different from zero. *)
Lemma to_float_nonzero (s : scalar) (f : float) :
  eq_zero s = false -> to_float s = Return f -> feq f fzero = false.
Proof.
  destruct s as [z | g]; simpl; intros Hs Hf.
  - apply Z.eqb_neq in Hs.
    destruct (float_of_Z z) as [b | b | | b m e] eqn:E; inversion Hf; subst.
    + now apply float_of_Z_nonzero in E.
    + reflexivity.
    + now destruct b.
  - inversion Hf; subst. exact Hs.
Qed.

(** ** Multiplication and division of a complete number *)

(** What [__mul__] returns for a zero scalar and for a nonzero scalar. *)
Lemma __mul___zero (x : CompleteNumber.t) (s : scalar) :
  eq_zero s = true ->
  __mul__ x (Scalar s)
  = Return (Val (CompleteNumber.mk fzero fzero (_real x) (_imag x))).
Proof.
  intros Hs. unfold __mul__. rewrite Hs. reflexivity.
Qed.

Lemma __mul___nonzero (x : CompleteNumber.t) (s : scalar) :
  eq_zero s = false ->
  __mul__ x (Scalar s)
  = (let* f := to_float s in
     Return (Val (CompleteNumber.mk (fmul (_real x) f) (fmul (_imag x) f) fzero fzero))).
Proof.
  intros Hs. unfold __mul__, float_mul. rewrite Hs.
  destruct (to_float s); reflexivity.
Qed.

(** C1. Absorption law: a complete number with fields (r, i, ur, ui) times a
    scalar equal to zero is the complete number (0, 0, r, i); the former
    absorbed values ur and ui are overwritten. *)
Theorem absorption_law (x : CompleteNumber.t) (s : scalar) :
  eq_zero s = true ->
  mul x (Scalar s) = Return (CompleteNumber.mk fzero fzero (_real x) (_imag x)).
Proof.
  intros Hs. unfold mul. rewrite (__mul___zero x s Hs). reflexivity.
Qed.

Lemma absorption_law_witness :
  eq_zero (PyInt 0) = true
  /\ mul (CompleteNumber.mk f3 f4 f1 f1) (Scalar (PyInt 0))
     = Return (CompleteNumber.mk fzero fzero f3 f4).
Proof.
  split; [reflexivity |].
  apply (absorption_law (CompleteNumber.mk f3 f4 f1 f1) (PyInt 0)). reflexivity.
Defined.

(** Division by a zero scalar, by cases on the real and imag fields. *)
Lemma truediv_zero_nonabsorbed (x : CompleteNumber.t) (s : scalar) :
  eq_zero s = true ->
  fne (_real x) fzero || fne (_imag x) fzero = true ->
  truediv x (Scalar s) = Raise ZeroDivisionError.
Proof.
  intros Hs Hx. unfold truediv, __truediv__. now rewrite Hs, Hx.
Qed.

Lemma truediv_zero_absorbed (x : CompleteNumber.t) (s : scalar) :
  eq_zero s = true ->
  fne (_real x) fzero || fne (_imag x) fzero = false ->
  truediv x (Scalar s) = Return (CompleteNumber.mk (_u_real x) (_u_imag x) fzero fzero).
Proof.
  intros Hs Hx. unfold truediv, __truediv__. now rewrite Hs, Hx.
Qed.

(** C2. Division of a complete number (r, i, ur, ui) by a zero scalar raises
    [ZeroDivisionError] exactly when [r != 0 or i != 0]; otherwise it
    returns (ur, ui, 0, 0); hence absorbing and then recovering,
    [(x * 0) / 0], gives back the real and imag fields of [x]. *)
Theorem division_by_zero_recovery (x : CompleteNumber.t) (s : scalar) :
  eq_zero s = true ->
  (truediv x (Scalar s) = Raise ZeroDivisionError
     <-> fne (_real x) fzero || fne (_imag x) fzero = true)
  /\ (fne (_real x) fzero || fne (_imag x) fzero = false ->
      truediv x (Scalar s) = Return (CompleteNumber.mk (_u_real x) (_u_imag x) fzero fzero))
  /\ (let* a := mul x (Scalar s) in truediv a (Scalar s))
     = Return (CompleteNumber.mk (_real x) (_imag x) fzero fzero).
Proof.
  intros Hs. split; [| split].
  - split.
    + intros H. destruct (fne (_real x) fzero || fne (_imag x) fzero) eqn:Hx; [reflexivity |].
      rewrite (truediv_zero_absorbed x s Hs Hx) in H. discriminate.
    + now apply truediv_zero_nonabsorbed.
  - now apply truediv_zero_absorbed.
  - unfold mul at 1. rewrite (__mul___zero x s Hs). simpl.
    now apply truediv_zero_absorbed.
Qed.

Lemma division_by_zero_recovery_witness :
  eq_zero (PyInt 0) = true
  /\ (let* a := mul (CompleteNumber.mk f3 f4 fzero fzero) (Scalar (PyInt 0)) in
   truediv a (Scalar (PyInt 0)))
     = Return (CompleteNumber.mk f3 f4 fzero fzero).
Proof.
  split; [reflexivity |].
  apply (division_by_zero_recovery (CompleteNumber.mk f3 f4 fzero fzero) (PyInt 0)).
  reflexivity.
Defined.

(** C10. The all-zero complete number divided by a zero scalar returns the
    all-zero complete number, although the float [0.0] divided by the same
    scalar raises; a division by zero that raises has a nonzero real or imag
    field. *)
Theorem zero_divided_by_zero (s : scalar) :
  eq_zero s = true ->
  truediv (CompleteNumber.mk fzero fzero fzero fzero) (Scalar s)
    = Return (CompleteNumber.mk fzero fzero fzero fzero)
  /\ float_truediv fzero s = Raise ZeroDivisionError
  /\ (forall x, truediv x (Scalar s) = Raise ZeroDivisionError ->
        fne (_real x) fzero = true \/ fne (_imag x) fzero = true).
Proof.
  intros Hs. split; [| split].
  - now apply truediv_zero_absorbed.
  - destruct (eq_zero_cases s Hs) as [-> | [b ->]]; [reflexivity | now destruct b].
  - intros x H. apply orb_true_iff.
    destruct (fne (_real x) fzero || fne (_imag x) fzero) eqn:Hx; [reflexivity |].
    rewrite (truediv_zero_absorbed x s Hs Hx) in H. discriminate.
Qed.

Lemma zero_divided_by_zero_witness :
  eq_zero (PyFloat (S754_zero true)) = true
  /\ truediv (CompleteNumber.mk fzero fzero fzero fzero) (Scalar (PyFloat (S754_zero true)))
     = Return (CompleteNumber.mk fzero fzero fzero fzero).
Proof.
  split; [reflexivity |].
  apply (zero_divided_by_zero (PyFloat (S754_zero true))). reflexivity.
Defined.

(** C3, as stated, fails: multiplying (0, 0, 3, 4) by 1 gives (0, 0, 0, 0),
    not (0, 0, 3, 4). *)
Lemma nonzero_mul_keeps_absorbed_counterexample :
  mul (CompleteNumber.mk fzero fzero f3 f4) (Scalar (PyInt 1))
    = Return (CompleteNumber.mk fzero fzero fzero fzero)
  /\ mul (CompleteNumber.mk fzero fzero f3 f4) (Scalar (PyInt 1))
     <> Return (CompleteNumber.mk (fmul fzero f1) (fmul fzero f1) f3 f4).
Proof. split; [reflexivity | discriminate]. Qed.

(** C3, amended. A complete number (r, i, ur, ui) times a scalar [s]
    different from zero is (r*s, i*s, 0, 0): the real and imag fields are
    scaled by [float(s)] and the absorbed fields are reset to zero; when
    [float(s)] raises, so does the product. *)
Theorem nonzero_mul_resets_absorbed (x : CompleteNumber.t) (s : scalar) :
  eq_zero s = false ->
  mul x (Scalar s)
  = (let* f := to_float s in
     Return (CompleteNumber.mk (fmul (_real x) f) (fmul (_imag x) f) fzero fzero)).
Proof.
  intros Hs. unfold mul. rewrite (__mul___nonzero x s Hs).
  destruct (to_float s); reflexivity.
Qed.

Lemma nonzero_mul_resets_absorbed_witness :
  eq_zero (PyInt 2) = false
  /\ mul (CompleteNumber.mk f3 f4 f1 f1) (Scalar (PyInt 2))
     = Return (CompleteNumber.mk (fmul f3 (float_of_Z 2)) (fmul f4 (float_of_Z 2)) fzero fzero).
Proof.
  split; [reflexivity |].
  apply (nonzero_mul_resets_absorbed (CompleteNumber.mk f3 f4 f1 f1) (PyInt 2)). reflexivity.
Defined.

(** Division by a scalar different from zero scales the four fields. *)
Lemma truediv_nonzero (x : CompleteNumber.t) (s : scalar) :
  eq_zero s = false ->
  truediv x (Scalar s)
  = (let* f := to_float s in
     Return (CompleteNumber.mk (fdiv (_real x) f) (fdiv (_imag x) f)
                               (fdiv (_u_real x) f) (fdiv (_u_imag x) f))).
Proof.
  intros Hs. unfold truediv, __truediv__, float_truediv. rewrite Hs.
  destruct (to_float s) as [f | e] eqn:Hf; [| reflexivity].
  simpl. rewrite (to_float_nonzero s f Hs Hf). reflexivity.
Qed.

(** ** Rounding error of a division followed by a multiplication *)

(** The mantissa and exponent after the shift of [shr_fexp]. *)
Lemma shr_fexp_value (m e : Z) (l : location) :
  0 <= m ->
  exists n, 0 <= n
    /\ snd (shr_fexp prec emax m e l) = e + n
    /\ shr_m (fst (shr_fexp prec emax m e l)) = m / 2 ^ n.
Proof.
  intros Hm. unfold shr_fexp, shr.
  assert (Hrec : shr_m (shr_record_of_loc m l) = m) by (destruct l as [| []]; reflexivity).
  destruct (fexp prec emax (Zdigits2 m + e) - e) as [| n | n]; simpl fst; simpl snd.
  - exists 0. rewrite Hrec, Z.div_1_r. repeat split; lia.
  - exists (Zpos n). rewrite iter_shr_1_m, Hrec, Z.shiftr_div_pow2 by (rewrite ?Hrec; lia).
    repeat split; lia.
  - exists 0. rewrite Hrec, Z.div_1_r. repeat split; lia.
Qed.

(** A finite result of the rounding is within one unit in the last place of
    the rounded value, which lies between [mx] and [mx + 1] units of
    [2^ex]. *)
Lemma binary_round_aux_value (sx : bool) (mx ex : Z) (lx : location)
    (s : bool) (m : positive) (e : Z) :
  0 <= mx ->
  binary_round_aux prec emax sx mx ex lx = S754_finite s m e ->
  s = sx /\ exists n, 0 <= n /\ e = ex + n
    /\ (Zpos m - 1) * 2 ^ n <= mx /\ mx + 1 <= (Zpos m + 1) * 2 ^ n.
Proof.
  intros Hm. unfold binary_round_aux.
  destruct (shr_fexp_value mx ex lx Hm) as (n1 & Hn1 & He1 & Hm1).
  destruct (shr_fexp prec emax mx ex lx) as [mrs' e'] eqn:E1. simpl fst in *; simpl snd in *.
  set (m2 := round_nearest_even (shr_m mrs') (loc_of_shr_record mrs')).
  assert (Hm2 : shr_m mrs' <= m2 <= shr_m mrs' + 1).
  { unfold m2, round_nearest_even.
    destruct (loc_of_shr_record mrs') as [| []]; try destruct (Z.even _); lia. }
  assert (HA : 0 < 2 ^ n1) by (apply Z.pow_pos_nonneg; lia).
  assert (Hm1' : 0 <= shr_m mrs') by (rewrite Hm1; apply Z.div_pos; lia).
  destruct (shr_fexp_value m2 e' loc_Exact) as (n2 & Hn2 & He2 & Hm3); [lia |].
  destruct (shr_fexp prec emax m2 e' loc_Exact) as [mrs'' e''] eqn:E2.
  simpl fst in *; simpl snd in *.
  destruct (shr_m mrs'') as [| m0 | m0] eqn:E3; try discriminate.
  destruct (Z.leb _ _); [| discriminate].
  intros [= <- <- <-]. split; [reflexivity |].
  exists (n1 + n2). rewrite Z.pow_add_r by lia.
  assert (HB : 0 < 2 ^ n2) by (apply Z.pow_pos_nonneg; lia).
  pose proof (Z.mul_div_le mx (2 ^ n1) HA).
  pose proof (Z.mul_succ_div_gt mx (2 ^ n1) HA).
  pose proof (Z.mul_div_le m2 (2 ^ n2) HB).
  pose proof (Z.mul_succ_div_gt m2 (2 ^ n2) HB).
  rewrite <- Hm1 in *. rewrite <- Hm3 in *. 
  repeat split; try lia; nia.
Qed.

(** The quotient computed by the division: [q <= m1 * 2^s / m2 < q + 1]. *)
Lemma SFdiv_core_value (m1 m2 : positive) (e1 e2 : Z) :
  exists q e' l s,
    SFdiv_core_binary prec emax (Zpos m1) e1 (Zpos m2) e2 = (q, e', l)
    /\ 0 <= s /\ e1 - e2 = e' + s /\ 0 <= q
    /\ q * Zpos m2 <= Zpos m1 * 2 ^ s /\ Zpos m1 * 2 ^ s < (q + 1) * Zpos m2.
Proof.
  unfold SFdiv_core_binary.
  set (e' := Z.min _ (e1 - e2)).
  assert (He' : e' <= e1 - e2) by apply Z.le_min_r.
  set (m' := match e1 - e2 - e' with Zpos _ => _ | Z0 => _ | Zneg _ => _ end).
  assert (Hm' : m' = Zpos m1 * 2 ^ (e1 - e2 - e')).
  { unfold m'. destruct (e1 - e2 - e') as [| p | p] eqn:Hs; try lia.
    now rewrite Z.shiftl_mul_pow2. }
  pose proof (Z_div_mod m' (Zpos m2) eq_refl) as Hdiv.
  destruct (Z.div_eucl m' (Zpos m2)) as [q r].
  exists q, e', (new_location (Zpos m2) r), (e1 - e2 - e').
  destruct Hdiv as [Hq Hr]. rewrite <- Hm'.
  assert (0 <= m') by (rewrite Hm'; apply Z.mul_nonneg_nonneg; [lia | apply Z.pow_nonneg; lia]).
  repeat split; try lia; nia.
Qed.

Lemma Qp2_pos (e : Z) : (0 < Qp2 e)%Q.
Proof.
  unfold Qp2. destruct (0 <=? e) eqn:He; unfold Qlt; cbn [Qnum Qden]; [| lia].
  apply Z.leb_le in He.
  assert (0 < 2 ^ e) by (apply Z.pow_pos_nonneg; lia). lia.
Qed.

Lemma Qp2_shift (a n : Z) : 0 <= n -> (Qp2 (a + n) == inject_Z (2 ^ n) * Qp2 a)%Q.
Proof.
  intros Hn. unfold Qp2, inject_Z, Qeq.
  destruct (0 <=? a) eqn:Ha, (0 <=? a + n) eqn:Han;
    try apply Z.leb_le in Ha; try apply Z.leb_le in Han;
    try apply Z.leb_gt in Ha; try apply Z.leb_gt in Han; try lia;
    cbn [Qnum Qden Qmult]; rewrite ?Pos.mul_1_l, ?Z.mul_1_l, ?Z.mul_1_r.
  - rewrite Z.pow_add_r by lia. apply Z.mul_comm.
  - rewrite Z2Pos.id by (apply Z.pow_pos_nonneg; lia).
    rewrite <- Z.pow_add_r by lia. f_equal. lia.
  - rewrite !Z2Pos.id by (apply Z.pow_pos_nonneg; lia).
    rewrite <- Z.pow_add_r by lia. f_equal. lia.
Qed.


Lemma close_assembly (P R X u w : Q) :
  (0 <= u -> 0 <= w -> P - u <= X -> X <= P + u -> X - w <= R -> R <= X + w ->
   4503599627370496 * u <= P -> 4503599627370496 * w <= X ->
   0 <= P /\ - (round_trip_tol * P) <= P - R /\ P - R <= round_trip_tol * P)%Q.
Proof. unfold round_trip_tol. intros. repeat split; lra. Qed.

Lemma isclose_same_sign (s : bool) (mp mr : positive) (ep er : Z) :
  (0 <= inject_Z (Zpos mp) * Qp2 ep ->
   - (round_trip_tol * (inject_Z (Zpos mp) * Qp2 ep))
     <= inject_Z (Zpos mp) * Qp2 ep - inject_Z (Zpos mr) * Qp2 er ->
   inject_Z (Zpos mp) * Qp2 ep - inject_Z (Zpos mr) * Qp2 er
     <= round_trip_tol * (inject_Z (Zpos mp) * Qp2 ep) ->
   isclose round_trip_tol (S754_finite s mp ep) (S754_finite s mr er))%Q.
Proof.
  intros HP Hlo Hhi. unfold isclose. cbn [float_to_Q].
  fold (Qp2 ep). fold (Qp2 er).
  set (P := (inject_Z (Zpos mp) * Qp2 ep)%Q) in *.
  set (R := (inject_Z (Zpos mr) * Qp2 er)%Q) in *.
  set (p := (Qmake (if s then Zneg mp else Zpos mp) 1 * Qp2 ep)%Q).
  set (r := (Qmake (if s then Zneg mr else Zpos mr) 1 * Qp2 er)%Q).
  assert (Hp : (p == if s then - P else P)%Q).
  { unfold p, P. destruct s; [| reflexivity].
    change (Qmake (Zneg mp) 1) with (- inject_Z (Zpos mp))%Q. ring. }
  assert (Hr : (r == if s then - R else R)%Q).
  { unfold r, R. destruct s; [| reflexivity].
    change (Qmake (Zneg mr) 1) with (- inject_Z (Zpos mr))%Q. ring. }
  assert (Habs : (Qabs p == P)%Q).
  { rewrite Hp. destruct s; [rewrite Qabs_opp |]; now apply Qabs_pos. }
  assert (Htol : (0 <= round_trip_tol)%Q) by (unfold round_trip_tol, Qle; simpl; lia).
  apply Qle_trans with (round_trip_tol * Qabs p)%Q.
  - rewrite Habs, Hp, Hr. apply Qabs_Qle_condition.
    destruct s; split; lra.
  - apply Qmult_le_compat_nonneg; split; try assumption;
      [apply Qle_refl | apply Qabs_nonneg | apply Q.le_max_l].
Qed.

Lemma scale_le (a b : Z) (U : Q) :
  (a <= b)%Z -> (0 <= U)%Q -> (inject_Z a * U <= inject_Z b * U)%Q.
Proof.
  intros Hab HU. apply Qmult_le_compat_r; [| assumption]. now rewrite <- Zle_Qle.
Qed.

Lemma inject_Z_pow2_pos (n : Z) : (0 <= n)%Z -> (0 < inject_Z (2 ^ n))%Q.
Proof.
  intros Hn. change 0%Q with (inject_Z 0). rewrite <- Zlt_Qlt.
  apply Z.pow_pos_nonneg; lia.
Qed.

Lemma xorb_cancel (a b : bool) : xorb (xorb a b) b = a.
Proof. now destruct a, b. Qed.

(** Dividing and multiplying back is the identity within [round_trip_tol]
    when the quotient and the product are normal floats. *)
Lemma div_mul_close (r f : float) :
  normal_float (fdiv r f) = true ->
  normal_float (fmul (fdiv r f) f) = true ->
  isclose round_trip_tol (fmul (fdiv r f) f) r.
Proof.
  destruct r as [sr | sr | | sr mr er], f as [sf | sf | | sf mf ef]; try discriminate.
  unfold fdiv, SFdiv.
  destruct (SFdiv_core_value mr mf er ef) as (qz & e' & l & s & -> & Hs & He & Hq0 & Hlo & Hhi).
  destruct (binary_round_aux prec emax (xorb sr sf) qz e' l) as [| | | sq mq eq] eqn:Hq;
    try discriminate.
  apply binary_round_aux_value in Hq as (-> & n & Hn & -> & Hq1 & Hq2); [| assumption].
  intros Hnq. unfold fmul, SFmul.
  destruct (binary_round_aux prec emax (xorb (xorb sr sf) sf) (Zpos (mq * mf)) (e' + n + ef)
              loc_Exact) as [| | | sp mp ep] eqn:Hp; try discriminate.
  apply binary_round_aux_value in Hp as (-> & n' & Hn' & -> & Hp1 & Hp2); [| lia].
  intros Hnp. rewrite xorb_cancel.
  cbn [normal_float] in Hnq, Hnp. apply Z.leb_le in Hnq, Hnp.
  change (2 ^ 52) with 4503599627370496 in Hnq, Hnp.
  rewrite Pos2Z.inj_mul in Hp1, Hp2.
  set (U := Qp2 (e' + ef)).
  assert (HU : (0 < U)%Q) by apply Qp2_pos.
  assert (Hpn : (0 < inject_Z (2 ^ n))%Q) by now apply inject_Z_pow2_pos.
  assert (Hpn' : (0 < inject_Z (2 ^ n'))%Q) by now apply inject_Z_pow2_pos.
  assert (Hps : (0 < inject_Z (2 ^ s))%Q) by now apply inject_Z_pow2_pos.
  assert (Hmf : (0 < inject_Z (Zpos mf))%Q) by reflexivity.
  assert (EG : (Qp2 (e' + n + ef) == inject_Z (2 ^ n) * U)%Q).
  { replace (e' + n + ef) with (e' + ef + n) by lia. now apply Qp2_shift. }
  assert (EP : (Qp2 (e' + n + ef + n') == inject_Z (2 ^ n') * (inject_Z (2 ^ n) * U))%Q).
  { rewrite Qp2_shift by assumption. now rewrite EG. }
  assert (ER : (Qp2 er == inject_Z (2 ^ s) * U)%Q).
  { replace er with (e' + ef + s) by lia. now apply Qp2_shift. }
  assert (HV : (0 <= inject_Z (2 ^ n) * U)%Q) by (apply Qmult_le_0_compat; lra).
  assert (HW : (0 <= inject_Z (2 ^ n') * (inject_Z (2 ^ n) * U))%Q)
    by (apply Qmult_le_0_compat; lra).
  assert (A2 : 0 < 2 ^ n) by (apply Z.pow_pos_nonneg; lia).
  assert (A3 : 0 < 2 ^ n') by (apply Z.pow_pos_nonneg; lia).
  assert (Z1 : Zpos mp * 2 ^ n' <= Zpos mq * Zpos mf + 2 ^ n') by lia.
  assert (Z2 : Zpos mq * Zpos mf <= Zpos mp * 2 ^ n' + 2 ^ n') by lia.
  assert (Z3 : Zpos mq * 2 ^ n * Zpos mf <= Zpos mr * 2 ^ s + 2 ^ n * Zpos mf) by nia.
  assert (Z4 : Zpos mr * 2 ^ s <= Zpos mq * 2 ^ n * Zpos mf + 2 ^ n * Zpos mf) by nia.
  pose proof (scale_le _ _ _ Z1 HV) as Q1.
  pose proof (scale_le _ _ _ Z2 HV) as Q2.
  pose proof (scale_le _ _ _ Z3 (Qlt_le_weak _ _ HU)) as Q3.
  pose proof (scale_le _ _ _ Z4 (Qlt_le_weak _ _ HU)) as Q4.
  pose proof (scale_le _ _ _ Hnp HW) as N1.
  assert (HX : (0 <= inject_Z (Zpos mf) * (inject_Z (2 ^ n) * U))%Q)
    by (apply Qmult_le_0_compat; lra).
  pose proof (scale_le _ _ _ Hnq HX) as N2.
  rewrite !inject_Z_plus, !inject_Z_mult in Q1.
  rewrite !inject_Z_plus, !inject_Z_mult in Q2.
  rewrite !inject_Z_plus, !inject_Z_mult in Q3.
  rewrite !inject_Z_plus, !inject_Z_mult in Q4.
  change (inject_Z 4503599627370496) with 4503599627370496%Q in N1, N2.
  set (an := inject_Z (2 ^ n)) in *. set (an' := inject_Z (2 ^ n')) in *.
  set (as_ := inject_Z (2 ^ s)) in *.
  set (amp := inject_Z (Zpos mp)) in *. set (amq := inject_Z (Zpos mq)) in *.
  set (amf := inject_Z (Zpos mf)) in *. set (amr := inject_Z (Zpos mr)) in *.
  destruct (close_assembly (amp * (an' * (an * U))) (amr * (as_ * U))
              (amq * (amf * (an * U))) (an' * (an * U)) (amf * (an * U)))
    as (HP0 & Hlow & Hhigh); try lra.
  apply isclose_same_sign; fold amp amr; rewrite ?EP, ?ER; assumption.
Qed.

(** C4, as stated, fails: ((0, 0, 3, 4) / 1) * 1 is (0, 0, 0, 0), whose
    absorbed fields are within no relative tolerance below 1 of 3 and 4. *)
Lemma scaling_identity_counterexample :
  ~ (exists tol, (tol < 1)%Q
       /\ scaling_identity tol (CompleteNumber.mk fzero fzero f3 f4) (PyInt 1)).
Proof.
  intros [tol [Htol [y [Hy [_ [_ [Hur _]]]]]]].
  assert (Ey : y = CompleteNumber.mk fzero fzero fzero fzero)
    by (vm_compute in Hy; now inversion Hy).
  subst y. unfold isclose in Hur. simpl float_to_Q in Hur.
  set (q := (_ * _)%Q) in Hur.
  assert (E1 : (Qabs (0 - q) == 3)%Q) by reflexivity.
  assert (E2 : (Qmax (Qabs 0) (Qabs q) == 3)%Q) by reflexivity.
  cbv beta iota in Hur. rewrite E1, E2 in Hur. lra.
Qed.

(** A zero divided by a finite nonzero float and multiplied back is a zero. *)
Lemma div_mul_zero (r f : float) :
  feq r fzero = true -> finite_float f = true -> fne f fzero = true ->
  isclose round_trip_tol (fmul (fdiv r f) f) r.
Proof.
  intros Hr Hf Hnz.
  destruct r as [b | [] | | [] m e]; try discriminate.
  destruct f as [c | c | | c m e]; try discriminate.
Qed.

Lemma in_range_close (r f : float) :
  in_range r f = true -> isclose round_trip_tol (fmul (fdiv r f) f) r.
Proof.
  unfold in_range. intros H. apply orb_true_iff in H as [H | H].
  - apply andb_true_iff in H as [Hq Hp]. now apply div_mul_close.
  - apply andb_true_iff in H as [H Hnz]. apply andb_true_iff in H as [Hr Hf].
    now apply div_mul_zero.
Qed.

(** C4, amended. For a scalar [s] different from zero, [x / s] divides the
    four fields of [x] by [float(s)], and [(x / s) * s] is
    ((r/s)*s, (i/s)*s, 0, 0): the absorbed fields are zero, and the real and
    imag fields are those of [x] within the relative tolerance [2^-50]
    whenever the division and the multiplication neither overflow nor
    underflow.  Outside that range the identity fails also on the real
    field: [(5e-324 / 2) * 2] is [0.0] and [(max / 0.5) * 0.5] is [inf]. *)
Theorem scaling_round_trip (x : CompleteNumber.t) (s : scalar) :
  eq_zero s = false ->
  truediv x (Scalar s)
  = (let* f := to_float s in
     Return (CompleteNumber.mk (fdiv (_real x) f) (fdiv (_imag x) f)
                               (fdiv (_u_real x) f) (fdiv (_u_imag x) f)))
  /\ (let* q := truediv x (Scalar s) in mul q (Scalar s))
     = (let* f := to_float s in
        Return (CompleteNumber.mk (fmul (fdiv (_real x) f) f) (fmul (fdiv (_imag x) f) f)
                                  fzero fzero))
  /\ (forall f, to_float s = Return f ->
        (in_range (_real x) f = true ->
           isclose round_trip_tol (fmul (fdiv (_real x) f) f) (_real x))
        /\ (in_range (_imag x) f = true ->
           isclose round_trip_tol (fmul (fdiv (_imag x) f) f) (_imag x)))
  /\ ((let* q := truediv (CompleteNumber.mk f_tiny fzero fzero fzero) (Scalar (PyInt 2)) in
       mul q (Scalar (PyInt 2)))
      = Return (CompleteNumber.mk fzero fzero fzero fzero)
      /\ ~ isclose round_trip_tol fzero f_tiny)
  /\ ((let* q := truediv (CompleteNumber.mk f_max fzero fzero fzero) (Scalar (PyFloat f_half)) in
       mul q (Scalar (PyFloat f_half)))
      = Return (CompleteNumber.mk (S754_infinity false) fzero fzero fzero)
      /\ ~ isclose round_trip_tol (S754_infinity false) f_max).
Proof.
  intros Hs. split; [now apply truediv_nonzero | split; [| split; [| split]]].
  - rewrite (truediv_nonzero x s Hs).
    destruct (to_float s) as [f | e] eqn:Hf; [| reflexivity].
    simpl bind. unfold mul. rewrite (__mul___nonzero _ s Hs), Hf. reflexivity.
  - intros f _. split; apply in_range_close.
  - split; [reflexivity |].
    intros H. vm_compute in H. now apply H.
  - split; [reflexivity | discriminate].
Qed.

Lemma scaling_round_trip_witness :
  eq_zero (PyInt 2) = false
  /\ to_float (PyInt 2) = Return f2
  /\ in_range f3 f2 = true
  /\ (let* q := truediv (CompleteNumber.mk f3 f4 f3 f4) (Scalar (PyInt 2)) in
      mul q (Scalar (PyInt 2)))
     = Return (CompleteNumber.mk f3 f4 fzero fzero)
  /\ isclose round_trip_tol (fmul (fdiv f3 f2) f2) f3.
Proof.
  destruct (scaling_round_trip (CompleteNumber.mk f3 f4 f3 f4) (PyInt 2) eq_refl)
    as (_ & Hmul & Hclose & _).
  split; [reflexivity | split; [reflexivity | split; [reflexivity | split]]].
  - rewrite Hmul. reflexivity.
  - apply (Hclose f2 eq_refl). reflexivity.
Defined.

(** ** The operators of a component *)

(** The class body binds [__rtruediv__] twice; the namespace keeps the
    second binding. *)
Lemma namespace_mul : CompleteComponent.namespace !! "__mul__" = Some CompleteComponent.__mul__.
Proof. reflexivity. Qed.

Lemma namespace_rmul : CompleteComponent.namespace !! "__rmul__" = Some CompleteComponent.__rmul__.
Proof. reflexivity. Qed.

Lemma namespace_truediv :
  CompleteComponent.namespace !! "__truediv__" = Some CompleteComponent.__truediv__.
Proof. reflexivity. Qed.

Lemma namespace_rtruediv :
  CompleteComponent.namespace !! "__rtruediv__" = Some CompleteComponent.__rtruediv__2.
Proof. reflexivity. Qed.

Lemma component_mul_unfold (v : CompleteComponent.t) (s : scalar) :
  CompleteComponent.mul v s = binary_op (CompleteComponent.__mul__ v s) builtin_foreign.
Proof. unfold CompleteComponent.mul, call_method. now rewrite namespace_mul. Qed.

(** C5. A component with value [x] times a scalar equal to zero is the
    string [str(x)] followed by [u] for the real slot and by [uj] for the
    imag slot, so [CompleteNumber(3, 4).real * 0] is ["3.0u"] and
    [CompleteNumber(3, 4).imag * 0] is ["4.0uj"]; times a scalar [s]
    different from zero it is the float [x * s]; and [s * v] evaluates as
    [v * s]. *)
Theorem component_multiplication (v : CompleteComponent.t) (s : scalar) :
  (eq_zero s = true -> CompleteComponent._type v = "real" ->
     CompleteComponent.mul v s
     = Return (VStr (float_repr (CompleteComponent._value v) +:+ "u")))
  /\ (eq_zero s = true -> CompleteComponent._type v = "imag" ->
     CompleteComponent.mul v s
     = Return (VStr (float_repr (CompleteComponent._value v) +:+ "uj")))
  /\ (eq_zero s = true ->
     (let* x := __init__2 (PyInt 3) (PyInt 4) in
      let* c := real x in CompleteComponent.mul c s) = Return (VStr "3.0u")
     /\ (let* x := __init__2 (PyInt 3) (PyInt 4) in
         let* c := imag x in CompleteComponent.mul c s) = Return (VStr "4.0uj"))
  /\ (eq_zero s = false ->
     CompleteComponent.mul v s
     = (let* f := to_float s in Return (VFloat (fmul (CompleteComponent._value v) f))))
  /\ CompleteComponent.mul_r s v = CompleteComponent.mul v s.
Proof.
  assert (Hzero : forall c, eq_zero s = true ->
            CompleteComponent.mul c s
            = Return (VStr (float_repr (CompleteComponent._value c)
                            +:+ (if String.eqb (CompleteComponent._type c) "real"
                                 then "u" else "uj")))).
  { intros c Hs. rewrite component_mul_unfold. unfold CompleteComponent.__mul__.
    rewrite Hs. now destruct (String.eqb _ _). }
  split; [| split; [| split; [| split]]].
  - intros Hs Ht. rewrite (Hzero v Hs), Ht. reflexivity.
  - intros Hs Ht. rewrite (Hzero v Hs), Ht. reflexivity.
  - intros Hs. split; simpl; rewrite (Hzero _ Hs); reflexivity.
  - intros Hs. rewrite component_mul_unfold. unfold CompleteComponent.__mul__, float_mul.
    rewrite Hs. destruct (to_float s); reflexivity.
  - unfold CompleteComponent.mul_r, call_method. rewrite namespace_rmul.
    rewrite component_mul_unfold.
    unfold CompleteComponent.__rmul__, CompleteComponent.__mul__, builtin_foreign, binary_op.
    destruct (eq_zero s); [destruct (String.eqb _ _); reflexivity |].
    destruct (float_mul _ s); reflexivity.
Qed.

Lemma component_multiplication_witness :
  CompleteComponent.mul (CompleteComponent.mk f3 "real") (PyFloat fzero) = Return (VStr "3.0u")
  /\ CompleteComponent.mul (CompleteComponent.mk f4 "imag") (PyInt 0) = Return (VStr "4.0uj")
  /\ CompleteComponent.mul (CompleteComponent.mk f3 "real") (PyInt 4)
     = Return (VFloat (fmul f3 f4))
  /\ CompleteComponent.mul_r (PyInt 4) (CompleteComponent.mk f3 "real")
     = Return (VFloat (fmul f3 f4)).
Proof.
  split; [| split; [| split]].
  - apply (component_multiplication (CompleteComponent.mk f3 "real") (PyFloat fzero));
      reflexivity.
  - apply (component_multiplication (CompleteComponent.mk f4 "imag") (PyInt 0)); reflexivity.
  - destruct (component_multiplication (CompleteComponent.mk f3 "real") (PyInt 4))
      as (_ & _ & _ & H & _).
    rewrite H; reflexivity.
  - destruct (component_multiplication (CompleteComponent.mk f3 "real") (PyInt 4))
      as (_ & _ & _ & H & ->).
    rewrite H; reflexivity.
Defined.

(** C6. A component divided by a scalar equal to zero raises
    [ZeroDivisionError], whatever its value and slot, also for the
    components of a complete number whose own division by zero returns;
    divided by a scalar [s] different from zero it is the float
    [value / s]. *)
Theorem component_division (v : CompleteComponent.t) (s : scalar) :
  (eq_zero s = true -> CompleteComponent.truediv v s = Raise ZeroDivisionError)
  /\ (eq_zero s = true ->
      forall x, (let* c := real x in CompleteComponent.truediv c s) = Raise ZeroDivisionError
             /\ (let* c := imag x in CompleteComponent.truediv c s) = Raise ZeroDivisionError)
  /\ (eq_zero s = false ->
      CompleteComponent.truediv v s
      = (let* f := to_float s in Return (VFloat (fdiv (CompleteComponent._value v) f)))).
Proof.
  assert (Hzero : forall c, eq_zero s = true ->
                            CompleteComponent.truediv c s = Raise ZeroDivisionError).
  { intros c Hs. unfold CompleteComponent.truediv, call_method. rewrite namespace_truediv.
    unfold CompleteComponent.__truediv__. now rewrite Hs. }
  split; [apply Hzero | split].
  - intros Hs x. split; simpl; now apply Hzero.
  - intros Hs. unfold CompleteComponent.truediv, call_method. rewrite namespace_truediv.
    unfold CompleteComponent.__truediv__, float_truediv. rewrite Hs.
    destruct (to_float s) as [f | e] eqn:Hf; [| reflexivity].
    simpl. rewrite (to_float_nonzero s f Hs Hf). reflexivity.
Qed.

Lemma component_division_witness :
  CompleteComponent.truediv (CompleteComponent.mk f3 "real") (PyInt 0) = Raise ZeroDivisionError
  /\ CompleteComponent.truediv (CompleteComponent.mk f4 "imag") (PyInt 1)
     = Return (VFloat (fdiv f4 f1)).
Proof.
  split.
  - apply (component_division (CompleteComponent.mk f3 "real") (PyInt 0)). reflexivity.
  - destruct (component_division (CompleteComponent.mk f4 "imag") (PyInt 1)) as (_ & _ & H).
    rewrite H; reflexivity.
Defined.

(** C7 on the code. [s / v] raises [TypeError] for every scalar and every
    component: the second [__rtruediv__] of the class body, which returns
    [NotImplemented], replaces the first one, which divides [s] by the value
    of the component; [1 / CompleteNumber(3, 4).real] under the first
    definition would be the float [1 / 3.0]. *)
Theorem component_reverse_division (s : scalar) (v : CompleteComponent.t) :
  CompleteComponent.truediv_r s v = Raise TypeError
  /\ binary_op builtin_foreign
       (CompleteComponent.__rtruediv__1 (CompleteComponent.mk f3 "real") (PyInt 1))
     = Return (VFloat (fdiv f1 f3)).
Proof.
  split; [| reflexivity].
  unfold CompleteComponent.truediv_r, call_method. rewrite namespace_rtruediv. reflexivity.
Qed.

(** C8 on the code. [s / x] raises [AttributeError] for every scalar and
    every complete number: [__rtruediv__] reads [self._value], an attribute
    a complete number does not have. *)
Theorem complete_reverse_division (s : scalar) (x : CompleteNumber.t) :
  truediv_r s x = Raise AttributeError.
Proof.
  unfold truediv_r, __rtruediv__, getattr.
  assert (H : __dict__ x !! "_value" = None) by reflexivity.
  rewrite H. reflexivity.
Qed.

(** ** Strings: character classes, [join] and [replace] *)

Lemma append_assoc (a b c : string) : (a +:+ b) +:+ c = a +:+ (b +:+ c).
Proof. induction a as [| x a IH]; simpl; [reflexivity | now rewrite IH]. Qed.

Lemma append_empty_r (a : string) : a +:+ "" = a.
Proof. induction a as [| x a IH]; simpl; [reflexivity | now rewrite IH]. Qed.

Section Chars.
Variable P : ascii -> bool.

Lemma all_chars_app (a b : string) :
  all_chars P (a +:+ b) = all_chars P a && all_chars P b.
Proof.
  induction a as [| x a IH]; simpl; [reflexivity |].
  now rewrite IH, andb_assoc.
Qed.

Lemma all_chars_substring (s : string) : forall n m,
  all_chars P s = true -> all_chars P (String.substring n m s) = true.
Proof.
  induction s as [| x s IH]; intros n m H; simpl in H.
  - destruct n, m; reflexivity.
  - apply andb_true_iff in H as [Hx Hs].
    destruct n as [| n]; simpl.
    + destruct m as [| m]; simpl; [reflexivity |].
      now rewrite Hx, (IH 0%nat m Hs).
    + now apply IH.
Qed.

Lemma all_chars_rstrip_zeros (s : string) :
  all_chars P s = true -> all_chars P (rstrip_zeros s) = true.
Proof.
  induction s as [| x s IH]; simpl; intros H; [reflexivity |].
  apply andb_true_iff in H as [Hx Hs]. specialize (IH Hs).
  destruct (rstrip_zeros s) as [| y r].
  - destruct (Ascii.eqb x "0"); simpl; [reflexivity | now rewrite Hx].
  - simpl in *. now rewrite Hx, IH.
Qed.

Hypothesis Pdigits : all_chars P "0123456789" = true.

Lemma all_chars_zeros (n : nat) : all_chars P (zeros n) = true.
Proof.
  assert (H0 : P "0" = true) by (simpl in Pdigits; now destruct (P "0")).
  induction n as [| n IH]; simpl; [reflexivity | now rewrite H0, IH].
Qed.

Lemma all_chars_string_of_uint (d : Decimal.uint) :
  all_chars P (NilEmpty.string_of_uint d) = true.
Proof.
  simpl in Pdigits.
  repeat (apply andb_true_iff in Pdigits as [? Pdigits]).
  induction d; simpl; rewrite ?IHd; auto using andb_true_intro.
  all: apply andb_true_iff; split; assumption.
Qed.

Lemma all_chars_digits_of_N (n : N) : all_chars P (digits_of_N n) = true.
Proof.
  unfold digits_of_N, NilZero.string_of_uint.
  pose proof (all_chars_string_of_uint (N.to_uint n)) as H.
  destruct (N.to_uint n); try exact H.
  simpl in Pdigits. simpl. now destruct (P "0").
Qed.
End Chars.

(** Case analysis on the condition of the first [if] of the goal. *)
Ltac case_if :=
  match goal with
  | |- context [if ?b then _ else _] => destruct b
  end.

Lemma starts_minus_app (a b : string) :
  all_chars not_minus a = true -> starts_minus b = false -> starts_minus (a +:+ b) = false.
Proof.
  destruct a as [| c a]; simpl; [trivial |].
  intros H _. apply andb_true_iff in H as [Hc _].
  unfold not_minus in Hc. now apply negb_true_iff in Hc.
Qed.

(** ** [str] of a float: no space, and a leading minus exactly for the
    negative floats *)

Lemma shortest_digits_chars (P : ascii -> bool) (m : positive) (e : Z) :
  all_chars P "0123456789" = true -> all_chars P (fst (shortest_digits m e)) = true.
Proof.
  intros HP. unfold shortest_digits.
  destruct (shortest_from _ _ _ _ _ _ _) as [d k]. simpl fst.
  now apply all_chars_rstrip_zeros, all_chars_digits_of_N.
Qed.

Lemma format_repr_chars (P : ascii -> bool) (ds : string) (decpt : Z) :
  all_chars P "0123456789.e+-" = true ->
  all_chars P ds = true -> all_chars P (format_repr ds decpt) = true.
Proof.
  intros HP Hds.
  assert (Hdig : all_chars P "0123456789" = true).
  { simpl in HP |- *. repeat (apply andb_true_iff in HP as [-> HP]). reflexivity. }
  assert (Hsym : P "."%char = true /\ P "e"%char = true /\ P "+"%char = true
                 /\ P "-"%char = true /\ P "0"%char = true).
  { simpl in HP. repeat (apply andb_true_iff in HP as [? HP]). auto. }
  destruct Hsym as (Hdot & He & Hplus & Hminus & H0).
  unfold format_repr.
  destruct ((decpt <=? -4) || (16 <? decpt)).
  - assert (Hm : all_chars P match ds with
                             | String c EmptyString => ds
                             | String c rest => String c (String "." rest)
                             | EmptyString => ds
                             end = true).
    { destruct ds as [| c [| c' r]]; simpl in *; try assumption.
      apply andb_true_iff in Hds as [-> ->]. now rewrite Hdot. }
    assert (Hs : all_chars P (if decpt - 1 <? 0 then "-" else "+") = true).
    { destruct (decpt - 1 <? 0); simpl; now rewrite ?Hminus, ?Hplus. }
    assert (Hp : all_chars P (pad2 (digits_of_N (Z.abs_N (decpt - 1)))) = true).
    { unfold pad2. case_if; simpl; rewrite ?H0; now apply all_chars_digits_of_N. }
    rewrite !all_chars_app, Hm, Hs, Hp. simpl. now rewrite He.
  - destruct (decpt <=? 0).
    + rewrite !all_chars_app, all_chars_zeros, Hds by assumption.
      simpl. now rewrite H0, Hdot.
    + destruct (decpt <? _).
      * rewrite !all_chars_app, !all_chars_substring by assumption.
        simpl. now rewrite Hdot.
      * rewrite !all_chars_app, all_chars_zeros, Hds by assumption.
        simpl. now rewrite H0, Hdot.
Qed.

Lemma format_repr_no_minus (ds : string) (decpt : Z) :
  all_chars not_minus ds = true -> starts_minus (format_repr ds decpt) = false.
Proof.
  intros Hds. unfold format_repr.
  destruct ((decpt <=? -4) || (16 <? decpt)).
  - apply starts_minus_app; [| reflexivity].
    destruct ds as [| c [| c' r]]; simpl in *; assumption.
  - destruct (decpt <=? 0); [reflexivity |].
    destruct (decpt <? _).
    + apply starts_minus_app; [now apply all_chars_substring | reflexivity].
    + apply starts_minus_app; [assumption |].
      apply starts_minus_app; [now apply all_chars_zeros | reflexivity].
Qed.

Lemma float_repr_no_space (f : float) : all_chars not_space (float_repr f) = true.
Proof.
  destruct f as [[] | [] | | s m e]; try reflexivity.
  unfold float_repr.
  pose proof (shortest_digits_chars not_space m e eq_refl) as Hds.
  destruct (shortest_digits m e) as [ds decpt]. simpl in Hds.
  rewrite all_chars_app, format_repr_chars by (assumption || reflexivity).
  now destruct s.
Qed.

(** [str] of a negative float is a minus sign before [str] of its absolute
    value. *)
Lemma float_repr_negative (f : float) :
  flt f fzero = true -> float_repr f = "-" +:+ float_repr (fabs f).
Proof.
  destruct f as [[] | [] | | [] m e]; try discriminate; intros _; try reflexivity.
  simpl. now destruct (shortest_digits m e).
Qed.

(** [str] of a float that is neither zero nor negative does not start with a
    minus sign. *)
Lemma float_repr_not_negative (f : float) :
  flt f fzero = false -> fne f fzero = true -> starts_minus (float_repr f) = false.
Proof.
  destruct f as [[] | [] | | [] m e]; try discriminate; intros _ _; try reflexivity.
  unfold float_repr.
  pose proof (shortest_digits_chars not_minus m e eq_refl) as Hds.
  destruct (shortest_digits m e) as [ds decpt]. simpl in Hds.
  now apply format_repr_no_minus.
Qed.

(** ** [replace(" + -", " - ")] on a joined list of parts without spaces *)

(** Characters other than a space are copied. *)
Lemma replace_plain (p rest : string) :
  all_chars not_space p = true ->
  replace " + -" " - " (p +:+ rest) = p +:+ replace " + -" " - " rest.
Proof.
  unfold replace. induction p as [| c p IH]; simpl; intros H; [reflexivity |].
  apply andb_true_iff in H as [Hc Hp].
  unfold not_space in Hc. apply negb_true_iff in Hc.
  rewrite Ascii.eqb_sym, Hc. simpl. now rewrite IH.
Qed.

(** A separator before a part that starts with a minus sign becomes [" - "]. *)
Lemma replace_sep_minus (rest : string) :
  replace " + -" " - " (" + -" +:+ rest) = " - " +:+ replace " + -" " - " rest.
Proof. reflexivity. Qed.

(** A separator before a part that does not start with a minus sign stays. *)
Lemma replace_sep_plus (q rest : string) :
  all_chars not_space q = true -> starts_minus q = false ->
  rest = "" \/ (exists r, rest = " + " +:+ r) ->
  replace " + -" " - " (" + " +:+ q +:+ rest)
  = " + " +:+ replace " + -" " - " (q +:+ rest).
Proof.
  unfold replace. intros Hq Hm Hrest.
  destruct q as [| c q].
  - destruct Hrest as [-> | [r ->]]; reflexivity.
  - simpl in Hq, Hm. apply andb_true_iff in Hq as [Hc Hq].
    simpl. rewrite (Ascii.eqb_sym "-" c), Hm. simpl.
    destruct (Ascii.eqb "+" c); [| reflexivity]. simpl.
    destruct q as [| d q].
    + destruct Hrest as [-> | [r ->]]; reflexivity.
    + simpl in Hq. apply andb_true_iff in Hq as [Hd _].
      unfold not_space in Hd. apply negb_true_iff in Hd.
      simpl. rewrite (Ascii.eqb_sym " " d), Hd. reflexivity.
Qed.

Lemma join_cons (sep p : string) (ps : list string) :
  join sep (p :: ps) = p +:+ sep_tail sep ps.
Proof.
  unfold join. revert p. induction ps as [| q ps IH]; intros p; simpl.
  - now rewrite append_empty_r.
  - now rewrite <- IH.
Qed.

Lemma concat_empty_cons (p : string) (ps : list string) :
  String.concat "" (p :: ps) = p +:+ String.concat "" ps.
Proof. destruct ps; simpl; [now rewrite append_empty_r | reflexivity]. Qed.

Lemma sep_tail_shape (ps : list string) :
  sep_tail " + " ps = "" \/ (exists r, sep_tail " + " ps = " + " +:+ r).
Proof. destruct ps as [| p ps]; [now left | right; now eexists]. Qed.

Lemma starts_minus_append (a b : string) :
  starts_minus a = false -> starts_minus b = false -> starts_minus (a +:+ b) = false.
Proof. destruct a; simpl; trivial. Qed.

(** ** The rendering of a complete number *)

Lemma first_term_no_space (t : float * string) :
  all_chars not_space (snd t) = true -> all_chars not_space (first_term t) = true.
Proof.
  intros H. unfold first_term. now rewrite all_chars_app, float_repr_no_space, H.
Qed.

Lemma sep_tail_cons (sep p : string) (ps : list string) :
  sep_tail sep (p :: ps) = sep +:+ p +:+ sep_tail sep ps.
Proof. reflexivity. Qed.

Lemma replace_sep_negative (q rest : string) :
  all_chars not_space q = true ->
  replace " + -" " - " (" + " +:+ ("-" +:+ q) +:+ rest)
  = " - " +:+ q +:+ replace " + -" " - " rest.
Proof.
  intros Hq. rewrite <- (replace_plain q rest Hq). apply replace_sep_minus.
Qed.

Lemma later_terms_render (ts : list (float * string)) :
  Forall later_ok ts ->
  replace " + -" " - " (sep_tail " + " (map first_term ts))
  = String.concat "" (map later_term ts).
Proof.
  induction ts as [| t ts IH]; intros Hts; [reflexivity |].
  inversion Hts as [| ? ? (Hnz & Hsp & Hsm) Hrest]; subst.
  rewrite !map_cons, concat_empty_cons, sep_tail_cons.
  unfold later_term at 1. destruct (flt (fst t) fzero) eqn:Hneg.
  - unfold first_term at 1.
    rewrite (float_repr_negative _ Hneg), (append_assoc "-").
    rewrite replace_sep_negative, (IH Hrest).
    + now rewrite !append_assoc.
    + now rewrite all_chars_app, float_repr_no_space, Hsp.
  - rewrite replace_sep_plus, replace_plain, (IH Hrest).
    + unfold first_term. now rewrite !append_assoc.
    + now apply first_term_no_space.
    + now apply first_term_no_space.
    + apply starts_minus_append; [now apply float_repr_not_negative | assumption].
    + apply sep_tail_shape.
Qed.

Lemma repr_parts (x : CompleteNumber.t) :
  __repr__ x = replace " + -" " - " (join " + " (map first_term (spec_terms x))).
Proof.
  unfold __repr__, spec_terms.
  repeat case_if; cbn [map app fst snd]; unfold first_term; cbn [fst snd];
    rewrite ?append_empty_r; reflexivity.
Qed.

Lemma spec_terms_later (x : CompleteNumber.t) (t : float * string) (ts : list (float * string)) :
  spec_terms x = t :: ts ->
  all_chars not_space (snd t) = true /\ Forall later_ok ts.
Proof.
  unfold spec_terms.
  destruct (fne (_real x) fzero || _); destruct (fne (_imag x) fzero) eqn:Hi;
    destruct (fne (_u_real x) fzero) eqn:Hur; destruct (fne (_u_imag x) fzero) eqn:Hui;
    simpl; intros [= <- <-]; split; try reflexivity;
    repeat (constructor; [now repeat split |]); constructor.
Qed.

(** C9. The rendering of a complete number is the one of section 4.1: the
    nonzero terms in the order real, imag [j], u_real [u], u_imag [uj], the
    real term being also printed when the three other fields are zero,
    joined by [" + "], a negative term being joined by [" - "] and printed
    without its sign; so [CompleteNumber(3, 4)] prints as ["3.0 + 4.0j"],
    [CompleteNumber(0, 0, 3, 4)] as ["3.0u + 4.0uj"] and
    [CompleteNumber(0, 0, 0, 0)] as ["0.0"]. *)
Theorem to_string_rendering (x : CompleteNumber.t) :
  __repr__ x = spec_to_string x
  /\ (let* c := __init__2 (PyInt 3) (PyInt 4) in Return (__repr__ c))
     = Return "3.0 + 4.0j"
  /\ (let* c := __init__ (PyInt 0) (PyInt 0) (PyInt 3) (PyInt 4) in Return (__repr__ c))
     = Return "3.0u + 4.0uj"
  /\ (let* c := __init__ (PyInt 0) (PyInt 0) (PyInt 0) (PyInt 0) in Return (__repr__ c))
     = Return "0.0".
Proof.
  split; [| repeat split; vm_compute; reflexivity].
  rewrite repr_parts. unfold spec_to_string.
  destruct (spec_terms x) as [| t ts] eqn:E; [reflexivity |].
  destruct (spec_terms_later x t ts E) as [Ht Hts].
  rewrite !map_cons, join_cons, replace_plain by now apply first_term_no_space.
  now rewrite later_terms_render.
Qed.

(** ** Further properties: how multiplication, division and recovery compose *)

(** A scalar operand makes [__mul__] return a complete number or raise
    [OverflowError]; it never returns [NotImplemented]. *)
Lemma __mul___scalar (x : CompleteNumber.t) (s : scalar) :
  (exists y, __mul__ x (Scalar s) = Return (Val y))
  \/ __mul__ x (Scalar s) = Raise OverflowError.
Proof.
  destruct (eq_zero s) eqn:Hs.
  - left. eexists. now apply __mul___zero.
  - rewrite (__mul___nonzero x s Hs).
    destruct s as [z | f]; simpl; [| left; now eexists].
    destruct (float_of_Z z); simpl; (left; now eexists) || now right.
Qed.

(** X1. Multiplication by a scalar is commutative: [s * x] evaluates to what
    [x * s] evaluates to, for every scalar, zero or not; and the only
    exception either raises is [OverflowError] (an int beyond the range of
    floats). *)
Theorem scalar_mul_commutes (s : scalar) (x : CompleteNumber.t) :
  mul_r s x = mul x (Scalar s)
  /\ (forall e, mul x (Scalar s) = Raise e -> e = OverflowError).
Proof.
  unfold mul_r, mul, __rmul__, builtin_foreign.
  destruct (__mul___scalar x s) as [[y ->] | ->]; simpl.
  - split; [reflexivity | discriminate].
  - split; [reflexivity | now intros e [= <-]].
Qed.

(** X2. A complete number times or divided by another complete number
    raises [TypeError]: both methods return [NotImplemented], and the
    reflected method of an operand of the same class is not tried. *)
Theorem complete_operand_unsupported (x y : CompleteNumber.t) :
  mul x (Complete y) = Raise TypeError /\ truediv x (Complete y) = Raise TypeError.
Proof. split; reflexivity. Qed.

(** X3. Multiplication never reads the absorbed fields: two complete numbers
    with the same real and imag fields have the same product with every
    scalar. *)
Theorem mul_ignores_absorbed (x y : CompleteNumber.t) (s : scalar) :
  _real x = _real y -> _imag x = _imag y ->
  mul x (Scalar s) = mul y (Scalar s).
Proof.
  intros Hr Hi. unfold mul. destruct (eq_zero s) eqn:Hs.
  - now rewrite !(__mul___zero _ s Hs), Hr, Hi.
  - now rewrite !(__mul___nonzero _ s Hs), Hr, Hi.
Qed.

Lemma mul_ignores_absorbed_witness :
  _real (CompleteNumber.mk f3 f4 f1 f1) = _real (CompleteNumber.mk f3 f4 fzero f3)
  /\ mul (CompleteNumber.mk f3 f4 f1 f1) (Scalar (PyInt 2))
     = mul (CompleteNumber.mk f3 f4 fzero f3) (Scalar (PyInt 2)).
Proof.
  split; [reflexivity |].
  apply (mul_ignores_absorbed (CompleteNumber.mk f3 f4 f1 f1)
                              (CompleteNumber.mk f3 f4 fzero f3) (PyInt 2));
    reflexivity.
Defined.

(** X4. Absorbing twice erases the number: [(x * 0) * 0] is the all-zero
    complete number, and dividing it by zero returns the all-zero complete
    number, so the fields of [x] cannot be recovered. *)
Theorem double_absorption_erases (x : CompleteNumber.t) (s : scalar) :
  eq_zero s = true ->
  (let* a := mul x (Scalar s) in mul a (Scalar s))
  = Return (CompleteNumber.mk fzero fzero fzero fzero)
  /\ (let* a := mul x (Scalar s) in
      let* b := mul a (Scalar s) in truediv b (Scalar s))
     = Return (CompleteNumber.mk fzero fzero fzero fzero).
Proof.
  intros Hs. unfold mul.
  rewrite (__mul___zero x s Hs). cbn [bind binary_op].
  rewrite (__mul___zero _ s Hs). cbn [bind binary_op].
  split; [reflexivity |]. now apply truediv_zero_absorbed.
Qed.

Lemma double_absorption_erases_witness :
  eq_zero (PyInt 0) = true
  /\ (let* a := mul (CompleteNumber.mk f3 f4 fzero fzero) (Scalar (PyInt 0)) in
      mul a (Scalar (PyInt 0)))
     = Return (CompleteNumber.mk fzero fzero fzero fzero).
Proof.
  split; [reflexivity |].
  apply (double_absorption_erases (CompleteNumber.mk f3 f4 fzero fzero) (PyInt 0)).
  reflexivity.
Defined.

(** X5. Recovering and absorbing again is a round trip: for a complete
    number whose real and imag fields are zero, [(x / 0) * 0] is
    (0, 0, ur, ui). *)
Theorem recover_then_absorb (x : CompleteNumber.t) (s : scalar) :
  eq_zero s = true ->
  fne (_real x) fzero || fne (_imag x) fzero = false ->
  (let* a := truediv x (Scalar s) in mul a (Scalar s))
  = Return (CompleteNumber.mk fzero fzero (_u_real x) (_u_imag x)).
Proof.
  intros Hs Hx. rewrite (truediv_zero_absorbed x s Hs Hx). cbn [bind].
  unfold mul. now rewrite (__mul___zero _ s Hs).
Qed.

Lemma recover_then_absorb_witness :
  eq_zero (PyInt 0) = true
  /\ (let* a := truediv (CompleteNumber.mk fzero (S754_zero true) f3 f4) (Scalar (PyInt 0)) in
      mul a (Scalar (PyInt 0)))
     = Return (CompleteNumber.mk fzero fzero f3 f4).
Proof.
  split; [reflexivity |].
  apply (recover_then_absorb (CompleteNumber.mk fzero (S754_zero true) f3 f4) (PyInt 0));
    reflexivity.
Defined.

Lemma feq_zero_inv (f : float) : feq f fzero = true -> exists b, f = S754_zero b.
Proof. destruct f as [b | [] | | [] m e]; try discriminate. now exists b. Qed.

Lemma fdiv_zero_nonzero (r f : float) :
  feq r fzero = true -> feq f fzero = false -> f <> S754_nan ->
  feq (fdiv r f) fzero = true.
Proof.
  intros Hr Hf Hnan. apply feq_zero_inv in Hr as [b ->].
  destruct f as [c | c | | c m e]; try discriminate; try contradiction; reflexivity.
Qed.

(** X6. Recovery commutes with scaling: for a complete number whose real and
    imag fields are zero and a scalar [s] that is neither zero nor a NaN,
    [(x / s) / 0] is (ur/s, ui/s, 0, 0), and [(x / 0) / s] has the same real
    and imag fields and zero absorbed fields. *)
Theorem recovery_commutes_with_scaling (x : CompleteNumber.t) (z s : scalar) (f : float) :
  eq_zero z = true -> eq_zero s = false -> to_float s = Return f -> f <> S754_nan ->
  fne (_real x) fzero || fne (_imag x) fzero = false ->
  (let* a := truediv x (Scalar s) in truediv a (Scalar z))
  = Return (CompleteNumber.mk (fdiv (_u_real x) f) (fdiv (_u_imag x) f) fzero fzero)
  /\ exists y,
       (let* a := truediv x (Scalar z) in truediv a (Scalar s)) = Return y
       /\ _real y = fdiv (_u_real x) f /\ _imag y = fdiv (_u_imag x) f
       /\ feq (_u_real y) fzero = true /\ feq (_u_imag y) fzero = true.
Proof.
  intros Hz Hs Hf Hnan Hx.
  pose proof (to_float_nonzero s f Hs Hf) as Hf0.
  apply orb_false_iff in Hx as Hx'. destruct Hx' as [Hr Hi].
  apply negb_false_iff in Hr, Hi.
  split.
  - rewrite (truediv_nonzero x s Hs), Hf. cbn [bind].
    apply truediv_zero_absorbed; [assumption |]. cbn [_real _imag]. unfold fne.
    now rewrite !fdiv_zero_nonzero.
  - rewrite (truediv_zero_absorbed x z Hz Hx). cbn [bind].
    rewrite (truediv_nonzero _ s Hs), Hf. cbn [bind].
    eexists. split; [reflexivity |]. cbn [_real _imag _u_real _u_imag].
    repeat split; now apply fdiv_zero_nonzero.
Qed.

Lemma recovery_commutes_with_scaling_witness :
  eq_zero (PyInt 0) = true /\ eq_zero (PyInt 1) = false
  /\ to_float (PyInt 1) = Return f1 /\ f1 <> S754_nan
  /\ (let* a := truediv (CompleteNumber.mk fzero fzero f3 f4) (Scalar (PyInt 1)) in
      truediv a (Scalar (PyInt 0)))
     = Return (CompleteNumber.mk (fdiv f3 f1) (fdiv f4 f1) fzero fzero).
Proof.
  repeat (split; [reflexivity || discriminate |]).
  apply (recovery_commutes_with_scaling (CompleteNumber.mk fzero fzero f3 f4)
           (PyInt 0) (PyInt 1) f1); try reflexivity.
  discriminate.
Defined.

Lemma fmul_nan_r (a : float) : fmul a S754_nan = S754_nan.
Proof. now destruct a. Qed.

Lemma fdiv_nan_r (a : float) : fdiv a S754_nan = S754_nan.
Proof. now destruct a. Qed.

(** X7. NaN edges: a NaN in the real or in the imag field counts as a
    non-absorbed component, so division by zero raises [ZeroDivisionError];
    a NaN scalar counts as different from zero, so multiplying by it returns
    (nan, nan, 0, 0) and dividing by it returns four NaN fields, without an
    exception. *)
Theorem nan_edges (x : CompleteNumber.t) (z : scalar) :
  eq_zero z = true ->
  (_real x = S754_nan \/ _imag x = S754_nan ->
     truediv x (Scalar z) = Raise ZeroDivisionError)
  /\ mul x (Scalar (PyFloat S754_nan))
     = Return (CompleteNumber.mk S754_nan S754_nan fzero fzero)
  /\ truediv x (Scalar (PyFloat S754_nan))
     = Return (CompleteNumber.mk S754_nan S754_nan S754_nan S754_nan).
Proof.
  intros Hz. split; [| split].
  - intros Hnan. apply truediv_zero_nonabsorbed; [assumption |].
    apply orb_true_iff. destruct Hnan as [-> | ->]; [now left | now right].
  - unfold mul. rewrite (__mul___nonzero x (PyFloat S754_nan) eq_refl). cbn [to_float bind binary_op].
    now rewrite !fmul_nan_r.
  - rewrite (truediv_nonzero x (PyFloat S754_nan) eq_refl). cbn [to_float bind].
    now rewrite !fdiv_nan_r.
Qed.

Lemma nan_edges_witness :
  eq_zero (PyInt 0) = true
  /\ truediv (CompleteNumber.mk S754_nan fzero f3 f4) (Scalar (PyInt 0))
     = Raise ZeroDivisionError.
Proof.
  split; [reflexivity |].
  apply (nan_edges (CompleteNumber.mk S754_nan fzero f3 f4) (PyInt 0));
    [reflexivity | now left].
Defined.

(** X8. The sum of two vanished numbers is recovered as the sum of the
    numbers: absorbing [x] and [y], adding their absorbed fields into a new
    complete number and dividing it by zero returns
    (x.real + y.real, x.imag + y.imag, 0, 0). *)
Theorem vanishing_summation (x y : CompleteNumber.t) (z : scalar) :
  eq_zero z = true ->
  (let* box_vanished := mul x (Scalar z) in
   let* crate_vanished := mul y (Scalar z) in
   let* total_vanished :=
     __init__ (PyInt 0) (PyInt 0)
       (PyFloat (fadd (_u_real box_vanished) (_u_real crate_vanished)))
       (PyFloat (fadd (_u_imag box_vanished) (_u_imag crate_vanished))) in
   truediv total_vanished (Scalar z))
  = Return (CompleteNumber.mk (fadd (_real x) (_real y)) (fadd (_imag x) (_imag y))
                              fzero fzero).
Proof.
  intros Hz. unfold mul.
  rewrite (__mul___zero x z Hz), (__mul___zero y z Hz). cbn [bind binary_op].
  change (__init__ (PyInt 0) (PyInt 0) ?a ?b) with (__init__ (PyInt 0) (PyInt 0) a b).
  cbn [__init__ to_float bind _u_real _u_imag].
  change (float_of_Z 0) with fzero. cbn iota. cbn [bind].
  now apply truediv_zero_absorbed.
Qed.

Lemma vanishing_summation_witness :
  eq_zero (PyInt 0) = true
  /\ (let* box_vanished :=
        mul (CompleteNumber.mk (float_of_Z 5) fzero fzero fzero) (Scalar (PyInt 0)) in
      let* crate_vanished :=
        mul (CompleteNumber.mk (float_of_Z 3) fzero fzero fzero) (Scalar (PyInt 0)) in
      let* total_vanished :=
        __init__ (PyInt 0) (PyInt 0)
          (PyFloat (fadd (_u_real box_vanished) (_u_real crate_vanished)))
          (PyFloat (fadd (_u_imag box_vanished) (_u_imag crate_vanished))) in
      truediv total_vanished (Scalar (PyInt 0)))
     = Return (CompleteNumber.mk (float_of_Z 8) fzero fzero fzero).
Proof.
  split; [reflexivity |].
  rewrite (vanishing_summation (CompleteNumber.mk (float_of_Z 5) fzero fzero fzero)
             (CompleteNumber.mk (float_of_Z 3) fzero fzero fzero) (PyInt 0) eq_refl).
  reflexivity.
Defined.

(** ** Further properties of a component *)

Lemma component_mul_nonzero (v : CompleteComponent.t) (s : scalar) :
  eq_zero s = false ->
  CompleteComponent.mul v s
  = (let* f := to_float s in Return (VFloat (fmul (CompleteComponent._value v) f))).
Proof.
  intros Hs. rewrite component_mul_unfold.
  unfold CompleteComponent.__mul__, float_mul. rewrite Hs.
  destruct (to_float s); reflexivity.
Qed.

Lemma component_truediv_nonzero (v : CompleteComponent.t) (s : scalar) :
  eq_zero s = false ->
  CompleteComponent.truediv v s
  = (let* f := to_float s in Return (VFloat (fdiv (CompleteComponent._value v) f))).
Proof.
  intros Hs. unfold CompleteComponent.truediv, call_method. rewrite namespace_truediv.
  unfold CompleteComponent.__truediv__, float_truediv. rewrite Hs.
  destruct (to_float s) as [f | e] eqn:Hf; [| reflexivity].
  simpl. rewrite (to_float_nonzero s f Hs Hf). reflexivity.
Qed.

(** X9. For a scalar different from zero the components agree with the
    whole number: [x.real * s] and [x.imag * s] are the real and imag fields
    of [x * s], and [x.real / s] and [x.imag / s] are those of [x / s],
    with the same exception when the scalar does not convert to a float. *)
Theorem components_agree_with_number (x : CompleteNumber.t) (s : scalar) :
  eq_zero s = false ->
  (let* c := real x in CompleteComponent.mul c s)
    = (let* y := mul x (Scalar s) in Return (VFloat (_real y)))
  /\ (let* c := imag x in CompleteComponent.mul c s)
    = (let* y := mul x (Scalar s) in Return (VFloat (_imag y)))
  /\ (let* c := real x in CompleteComponent.truediv c s)
    = (let* y := truediv x (Scalar s) in Return (VFloat (_real y)))
  /\ (let* c := imag x in CompleteComponent.truediv c s)
    = (let* y := truediv x (Scalar s) in Return (VFloat (_imag y))).
Proof.
  intros Hs. unfold real, imag, CompleteComponent.__init__. cbn [to_float bind].
  rewrite !(component_mul_nonzero _ s Hs), !(component_truediv_nonzero _ s Hs).
  unfold mul. rewrite (__mul___nonzero x s Hs), (truediv_nonzero x s Hs).
  destruct (to_float s); repeat split; reflexivity.
Qed.

Lemma components_agree_with_number_witness :
  eq_zero (PyInt 2) = false
  /\ (let* c := real (CompleteNumber.mk f3 f4 f1 f1) in CompleteComponent.mul c (PyInt 2))
     = (let* y := mul (CompleteNumber.mk f3 f4 f1 f1) (Scalar (PyInt 2)) in
        Return (VFloat (_real y))).
Proof.
  split; [reflexivity |].
  apply (components_agree_with_number (CompleteNumber.mk f3 f4 f1 f1) (PyInt 2)).
  reflexivity.
Defined.

(** X10. A component whose tag is not ['real'] is treated as imaginary,
    whatever the tag: times a scalar equal to zero it is [str(value)]
    followed by [uj]. *)
Theorem other_tag_is_imaginary (v : CompleteComponent.t) (s : scalar) :
  eq_zero s = true -> CompleteComponent._type v <> "real" ->
  CompleteComponent.mul v s
  = Return (VStr (float_repr (CompleteComponent._value v) +:+ "uj")).
Proof.
  intros Hs Ht. rewrite component_mul_unfold. unfold CompleteComponent.__mul__.
  rewrite Hs. apply String.eqb_neq in Ht. now rewrite Ht.
Qed.

Lemma other_tag_is_imaginary_witness :
  eq_zero (PyInt 0) = true /\ "u_real" <> "real"
  /\ CompleteComponent.mul (CompleteComponent.mk f3 "u_real") (PyInt 0)
     = Return (VStr "3.0uj").
Proof.
  assert (Ht : "u_real" <> "real") by discriminate.
  split; [reflexivity | split; [exact Ht |]].
  rewrite (other_tag_is_imaginary (CompleteComponent.mk f3 "u_real") (PyInt 0) eq_refl Ht).
  reflexivity.
Defined.

(** ** Further properties of the rendering *)

Lemma replace_no_space (p : string) :
  all_chars not_space p = true -> replace " + -" " - " p = p.
Proof.
  intros Hp. rewrite <- (append_empty_r p) at 1.
  rewrite (replace_plain p "" Hp). apply append_empty_r.
Qed.

(** X11. A complete number whose imag and absorbed fields are zero prints
    exactly as the float in its real field, negative zero included, and as
    its real component prints. *)
Theorem real_only_rendering (x : CompleteNumber.t) :
  feq (_imag x) fzero = true -> feq (_u_real x) fzero = true ->
  feq (_u_imag x) fzero = true ->
  __repr__ x = float_repr (_real x)
  /\ (let* c := real x in Return (CompleteComponent.__repr__ c)) = Return (__repr__ x).
Proof.
  intros Hi Hur Hui.
  assert (H : __repr__ x = float_repr (_real x)).
  { unfold feq in Hi, Hur, Hui. unfold __repr__, fne, feq.
    rewrite Hi, Hur, Hui, orb_true_r. cbn [negb app join String.concat].
    apply replace_no_space, float_repr_no_space. }
  split; [exact H |]. now rewrite H.
Qed.

Lemma real_only_rendering_witness :
  feq fzero fzero = true
  /\ __repr__ (CompleteNumber.mk (S754_zero true) fzero fzero fzero) = "-0.0".
Proof.
  split; [reflexivity |].
  destruct (real_only_rendering (CompleteNumber.mk (S754_zero true) fzero fzero fzero))
    as [H _]; [reflexivity | reflexivity | reflexivity |].
  rewrite H. reflexivity.
Defined.

Lemma append_nonempty_r (a b : string) : b <> "" -> a +:+ b <> "".
Proof. destruct a; simpl; [trivial | discriminate]. Qed.

Lemma append_nonempty_l (a b : string) : a <> "" -> a +:+ b <> "".
Proof. destruct a; simpl; [contradiction | discriminate]. Qed.

Lemma format_repr_nonempty (ds : string) (decpt : Z) : format_repr ds decpt <> "".
Proof.
  unfold format_repr.
  destruct ((decpt <=? -4) || (16 <? decpt)); [| destruct (decpt <=? 0); [| case_if]].
  - apply append_nonempty_r. simpl. discriminate.
  - simpl. discriminate.
  - apply append_nonempty_r. simpl. discriminate.
  - apply append_nonempty_r, append_nonempty_r. discriminate.
Qed.

Lemma float_repr_nonempty (f : float) : float_repr f <> "".
Proof.
  destruct f as [[] | [] | | s m e]; try discriminate.
  unfold float_repr. destruct (shortest_digits m e) as [ds decpt].
  apply append_nonempty_r, format_repr_nonempty.
Qed.

Lemma spec_terms_nonempty (x : CompleteNumber.t) : spec_terms x <> [].
Proof.
  unfold spec_terms, fne, feq.
  destruct (SFeqb (_imag x) fzero), (SFeqb (_u_real x) fzero), (SFeqb (_u_imag x) fzero);
    rewrite ?orb_true_r; simpl; try discriminate.
  all: destruct (negb _ || _); discriminate.
Qed.

(** The rendering is the first term followed by the later terms. *)
Lemma repr_terms (x : CompleteNumber.t) :
  exists t ts,
    spec_terms x = t :: ts /\ Forall later_ok ts
    /\ all_chars not_space (first_term t) = true
    /\ __repr__ x = first_term t +:+ String.concat "" (map later_term ts).
Proof.
  destruct (spec_terms x) as [| t ts] eqn:E; [now apply spec_terms_nonempty in E |].
  destruct (spec_terms_later x t ts E) as [Ht Hts].
  exists t, ts. repeat split; try assumption; [now apply first_term_no_space |].
  rewrite repr_parts, E, !map_cons, join_cons, replace_plain
    by now apply first_term_no_space.
  now rewrite later_terms_render.
Qed.

(** X12. The rendering is never the empty string. *)
Theorem rendering_nonempty (x : CompleteNumber.t) : __repr__ x <> "".
Proof.
  destruct (repr_terms x) as (t & ts & _ & _ & _ & ->).
  apply append_nonempty_l, append_nonempty_l, float_repr_nonempty.
Qed.

Lemma starts_plus_app (a b : string) :
  all_chars not_plus a = true -> starts_plus b = false -> starts_plus (a +:+ b) = false.
Proof.
  destruct a as [| c a]; simpl; [trivial |].
  intros H _. apply andb_true_iff in H as [Hc _].
  unfold not_plus in Hc. now apply negb_true_iff in Hc.
Qed.

Lemma format_repr_no_plus (ds : string) (decpt : Z) :
  all_chars not_plus ds = true -> starts_plus (format_repr ds decpt) = false.
Proof.
  intros Hds. unfold format_repr.
  destruct ((decpt <=? -4) || (16 <? decpt)).
  - apply starts_plus_app; [| reflexivity].
    destruct ds as [| c [| c' r]]; simpl in *; assumption.
  - destruct (decpt <=? 0); [reflexivity |].
    destruct (decpt <? _).
    + apply starts_plus_app; [now apply all_chars_substring | reflexivity].
    + apply starts_plus_app; [assumption |].
      apply starts_plus_app; [now apply all_chars_zeros | reflexivity].
Qed.

Lemma float_repr_no_plus (f : float) : starts_plus (float_repr f) = false.
Proof.
  destruct f as [[] | [] | | s m e]; try reflexivity.
  unfold float_repr.
  pose proof (shortest_digits_chars not_plus m e eq_refl) as Hds.
  destruct (shortest_digits m e) as [ds decpt]. simpl in Hds.
  destruct s; [reflexivity |]. now apply format_repr_no_plus.
Qed.

(** Where [" + -"] cannot start. *)
Lemma contains_plain (p rest : string) :
  all_chars not_space p = true ->
  contains (p +:+ rest) " + -" = contains rest " + -".
Proof.
  induction p as [| c p IH]; simpl; intros H; [reflexivity |].
  apply andb_true_iff in H as [Hc Hp].
  unfold not_space in Hc. apply negb_true_iff in Hc.
  rewrite Ascii.eqb_sym, Hc. simpl. now apply IH.
Qed.

Lemma contains_after_sep (a : ascii) (w : string) :
  w <> "" -> starts_plus w = false ->
  (Ascii.eqb a "+" = true -> starts_minus w = false) ->
  contains (String " " (String a (String " " w))) " + -" = contains w " + -".
Proof.
  intros Hw Hp Hm. destruct w as [| c w]; [contradiction |].
  simpl in Hp. simpl.
  rewrite (Ascii.eqb_sym "+" c), Hp, andb_false_r.
  destruct (Ascii.eqb "+" a) eqn:Ha; simpl.
  - rewrite Ascii.eqb_sym in Ha. specialize (Hm Ha). simpl in Hm.
    rewrite (Ascii.eqb_sym "-" c), Hm. simpl.
    destruct (Ascii.eqb " " a); reflexivity.
  - destruct (Ascii.eqb " " a); reflexivity.
Qed.

Lemma later_terms_no_plus_minus (ts : list (float * string)) :
  Forall later_ok ts ->
  contains (String.concat "" (map later_term ts)) " + -" = false.
Proof.
  induction ts as [| t ts IH]; intros Hts; [reflexivity |].
  inversion Hts as [| ? ? (Hnz & Hsp & Hsm) Hrest]; subst.
  rewrite map_cons, concat_empty_cons. unfold later_term at 1.
  destruct (flt (fst t) fzero) eqn:Hneg.
  - pose proof (float_repr_nonempty (fabs (fst t))) as Hne.
    pose proof (float_repr_no_plus (fabs (fst t))) as Hpl.
    pose proof (float_repr_no_space (fabs (fst t))) as Hns.
    change ((" - " +:+ ?r) +:+ ?T) with (String " " (String "-" (String " " (r +:+ T)))).
    rewrite contains_after_sep.
    + rewrite contains_plain; [now apply IH | now rewrite all_chars_app, Hns, Hsp].
    + now apply append_nonempty_l, append_nonempty_l.
    + destruct (float_repr (fabs (fst t))); [contradiction | exact Hpl].
    + discriminate.
  - pose proof (float_repr_nonempty (fst t)) as Hne.
    pose proof (float_repr_no_plus (fst t)) as Hpl.
    pose proof (float_repr_no_space (fst t)) as Hns.
    pose proof (float_repr_not_negative (fst t) Hneg Hnz) as Hmi.
    change ((" + " +:+ ?r) +:+ ?T) with (String " " (String "+" (String " " (r +:+ T)))).
    rewrite contains_after_sep.
    + rewrite contains_plain; [now apply IH | now rewrite all_chars_app, Hns, Hsp].
    + now apply append_nonempty_l, append_nonempty_l.
    + destruct (float_repr (fst t)); [contradiction | exact Hpl].
    + intros _. destruct (float_repr (fst t)); [contradiction | exact Hmi].
Qed.

(** X13. The rendering never contains [" + -"]: a negative term is always
    joined by [" - "]. *)
Theorem rendering_has_no_plus_minus (x : CompleteNumber.t) :
  contains (__repr__ x) " + -" = false.
Proof.
  destruct (repr_terms x) as (t & ts & _ & Hts & Ht & ->).
  rewrite contains_plain by assumption.
  now apply later_terms_no_plus_minus.
Qed.

(** ** Further properties: exceptions of the division, construction from ints *)

(** X14. The exceptions of [x / s] for a scalar [s]: [ZeroDivisionError]
    exactly when [s] is zero and the real or the imag field is not, and
    [OverflowError] exactly when [s] is an int different from zero that does
    not convert to a float; it raises nothing else. *)
Theorem truediv_exceptions (x : CompleteNumber.t) (s : scalar) (e : exn) :
  truediv x (Scalar s) = Raise e <->
  (e = ZeroDivisionError /\ eq_zero s = true
   /\ fne (_real x) fzero || fne (_imag x) fzero = true)
  \/ (e = OverflowError /\ eq_zero s = false /\ to_float s = Raise OverflowError).
Proof.
  destruct (eq_zero s) eqn:Hs.
  - destruct (fne (_real x) fzero || fne (_imag x) fzero) eqn:Hx.
    + rewrite (truediv_zero_nonabsorbed x s Hs Hx). split.
      * intros [= <-]. now left.
      * intros [(-> & _) | (_ & H & _)]; [reflexivity | discriminate].
    + rewrite (truediv_zero_absorbed x s Hs Hx). split; [discriminate |].
      intros [(_ & _ & H) | (_ & H & _)]; discriminate.
  - rewrite (truediv_nonzero x s Hs). split.
    + intros H. right. destruct s as [z | f]; [| discriminate].
      simpl in *. destruct (float_of_Z z); simpl in H; try discriminate.
      injection H as <-. now repeat split.
    + intros [(_ & H & _) | (-> & _ & ->)]; [discriminate | reflexivity].
Qed.

Lemma truediv_exceptions_witness :
  truediv (CompleteNumber.mk f3 fzero fzero fzero) (Scalar (PyInt 0))
  = Raise ZeroDivisionError.
Proof.
  apply (truediv_exceptions (CompleteNumber.mk f3 fzero fzero fzero) (PyInt 0)).
  left. repeat split.
Defined.

Lemma binary_round_aux_shape (sx : bool) (mx ex : Z) (lx : location) :
  0 < mx -> emin prec emax < Zdigits2 mx + ex ->
  finite_float (binary_round_aux prec emax sx mx ex lx) = true
  \/ binary_round_aux prec emax sx mx ex lx = S754_infinity sx.
Proof.
  intros Hm He. unfold binary_round_aux.
  destruct (shr_fexp_pos prec emax eq_refl mx ex lx Hm He) as [H1 H2].
  destruct (shr_fexp prec emax mx ex lx) as [mrs' e'] eqn:E1. simpl fst in *; simpl snd in *.
  set (m2 := round_nearest_even (shr_m mrs') (loc_of_shr_record mrs')).
  assert (Hm2 : shr_m mrs' <= m2 <= shr_m mrs' + 1).
  { unfold m2, round_nearest_even.
    destruct (loc_of_shr_record mrs') as [| []]; try destruct (Z.even _); lia. }
  assert (Hd : Zdigits2 (shr_m mrs') <= Zdigits2 m2).
  { rewrite !Zdigits2_log2 by lia. apply Z.add_le_mono_r, Z.log2_le_mono. lia. }
  destruct (shr_fexp_pos prec emax eq_refl m2 e' loc_Exact) as [H3 _]; [lia | lia |].
  destruct (shr_fexp prec emax m2 e' loc_Exact) as [mrs'' e''] eqn:E2. simpl fst in *.
  destruct (shr_m mrs''); try lia.
  destruct (Z.leb _ _); [now left | now right].
Qed.

(** [float(z)] of an int is a finite float, and is zero exactly for [0]. *)
Lemma to_float_int (z : Z) (f : float) :
  to_float (PyInt z) = Return f ->
  finite_float f = true /\ (feq f fzero = true <-> z = 0).
Proof.
  intros Hf. split.
  - simpl in Hf. unfold float_of_Z, binary_normalize in Hf.
    assert (Hround : forall sx p,
               finite_float (binary_round prec emax sx p 0) = true
               \/ binary_round prec emax sx p 0 = S754_infinity sx).
    { intros sx p. unfold binary_round.
      destruct (shl_align p 0 (fexp prec emax (Zpos (digits2_pos p) + 0))) as [mz ez] eqn:E.
      apply binary_round_aux_shape; [lia |].
      unfold shl_align in E. change (emin prec emax) with (-1074).
      destruct (fexp prec emax (Zpos (digits2_pos p) + 0) - 0) eqn:Hd;
        inversion E; subst; simpl Zdigits2; unfold fexp;
        change (emin prec emax) with (-1074); lia. }
    destruct z as [| p | p].
    + now inversion Hf.
    + destruct (Hround false p) as [H | H]; rewrite ?H in Hf.
      * destruct (binary_round prec emax false p 0); inversion Hf; subst; now try discriminate.
      * discriminate.
    + destruct (Hround true p) as [H | H]; rewrite ?H in Hf.
      * destruct (binary_round prec emax true p 0); inversion Hf; subst; now try discriminate.
      * discriminate.
  - split.
    + intros H0. destruct (Z.eq_dec z 0) as [| Hz]; [assumption |].
      assert (Hs : eq_zero (PyInt z) = false) by now apply Z.eqb_neq.
      rewrite (to_float_nonzero (PyInt z) f Hs Hf) in H0. discriminate.
    + intros ->. now inversion Hf.
Qed.

(** X15. A complete number built from four ints has four finite fields (no
    infinity, no NaN), and a field is zero exactly when its argument is [0]. *)
Theorem int_construction (a b c d : Z) (x : CompleteNumber.t) :
  __init__ (PyInt a) (PyInt b) (PyInt c) (PyInt d) = Return x ->
  (finite_float (_real x) = true /\ (feq (_real x) fzero = true <-> a = 0))
  /\ (finite_float (_imag x) = true /\ (feq (_imag x) fzero = true <-> b = 0))
  /\ (finite_float (_u_real x) = true /\ (feq (_u_real x) fzero = true <-> c = 0))
  /\ (finite_float (_u_imag x) = true /\ (feq (_u_imag x) fzero = true <-> d = 0)).
Proof.
  unfold __init__. intros H.
  destruct (to_float (PyInt a)) as [fa | ] eqn:Ha; [| discriminate].
  destruct (to_float (PyInt b)) as [fb | ] eqn:Hb; [| discriminate].
  destruct (to_float (PyInt c)) as [fc | ] eqn:Hc; [| discriminate].
  destruct (to_float (PyInt d)) as [fd | ] eqn:Hd; [| discriminate].
  cbn [bind] in H. injection H as <-. cbn [_real _imag _u_real _u_imag].
  repeat split; try (now apply (to_float_int _ _ Ha)); try (now apply (to_float_int _ _ Hb));
    try (now apply (to_float_int _ _ Hc)); now apply (to_float_int _ _ Hd).
Qed.

Lemma int_construction_witness :
  __init__ (PyInt 3) (PyInt 4) (PyInt 0) (PyInt 0)
    = Return (CompleteNumber.mk f3 f4 fzero fzero)
  /\ finite_float f3 = true /\ (feq f3 fzero = true <-> 3 = 0).
Proof.
  split; [reflexivity |].
  apply (int_construction 3 4 0 0 (CompleteNumber.mk f3 f4 fzero fzero)). reflexivity.
Defined.
